(** * Civil-works carbon screening pipeline: a shallow embedding

    The development follows the four Python scripts of the repository:

    - [contracts_finder.py]  paginated ingestion with retry and dedup,
    - [clean_data.py]        buyer-name canonicalisation and amount cleaning,
    - [pqe_engine.py]        material matching and carbon-risk estimation.

    Conventions of the embedding.

    - A Python [str] is a [string] (a sequence of bytes).  The helpers of
      module [Py] follow CPython on ASCII text; a byte above 127 has no case
      and is neither whitespace, a digit nor a word character.
    - A Python [float] is a primitive binary64 [float]; [+], [*], [/] and the
      comparisons are the IEEE operations CPython uses.
    - A missing cell of a table (pandas [NaN], Python [None]) is [None].
    - Exceptions are explicit values of a result type. *)

From Stdlib Require Import List String Ascii ZArith Bool Lia PeanoNat.
From Stdlib Require Import Permutation Sorted.
From Stdlib Require Import Floats.
Import ListNotations.
Open Scope string_scope.
Open Scope list_scope.
Open Scope nat_scope.

(* ================================================================= *)
(** ** Python built-ins used by the scripts *)

Module Py.

(** *** Characters *)

Definition between (lo hi : nat) (c : ascii) : bool :=
  let n := nat_of_ascii c in (lo <=? n) && (n <=? hi).

(** [str.isspace] on ASCII: TAB..CR, FS..US and the blank. *)
Definition isspace (c : ascii) : bool := between 9 13 c || between 28 32 c.

(** [str.isdigit] / regex [\d] on ASCII. *)
Definition isdigit (c : ascii) : bool := between 48 57 c.

Definition isupper (c : ascii) : bool := between 65 90 c.
Definition islower (c : ascii) : bool := between 97 122 c.

(** Regex [\w] on ASCII: letters, digits and the underscore. *)
Definition isword (c : ascii) : bool :=
  isupper c || islower c || isdigit c || Ascii.eqb c "_".

Definition lower_char (c : ascii) : ascii :=
  if isupper c then ascii_of_nat (nat_of_ascii c + 32) else c.

Definition upper_char (c : ascii) : ascii :=
  if islower c then ascii_of_nat (nat_of_ascii c - 32) else c.

(** *** Strings *)

Fixpoint smap (f : ascii -> ascii) (s : string) : string :=
  match s with
  | EmptyString => EmptyString
  | String c r => String (f c) (smap f r)
  end.

Fixpoint sfilter (p : ascii -> bool) (s : string) : string :=
  match s with
  | EmptyString => EmptyString
  | String c r => if p c then String c (sfilter p r) else sfilter p r
  end.

Definition lower : string -> string := smap lower_char.
Definition upper : string -> string := smap upper_char.

Definition is_empty (s : string) : bool :=
  match s with EmptyString => true | _ => false end.

(** Truthiness of a [str]. *)
Definition truthy (s : string) : bool := negb (is_empty s).

Fixpoint lstrip (s : string) : string :=
  match s with
  | String c r => if isspace c then lstrip r else s
  | EmptyString => EmptyString
  end.

Fixpoint rstrip (s : string) : string :=
  match s with
  | EmptyString => EmptyString
  | String c r =>
      let r' := rstrip r in
      if isspace c && is_empty r' then EmptyString else String c r'
  end.

(** [s.strip()] *)
Definition strip (s : string) : string := rstrip (lstrip s).

(** [s.split()]: maximal runs of non-whitespace; [cur] is the word being
    read. *)
Fixpoint split_ws (cur s : string) : list string :=
  match s with
  | EmptyString => if is_empty cur then [] else [cur]
  | String c r =>
      if isspace c
      then (if is_empty cur then split_ws "" r else cur :: split_ws "" r)
      else split_ws (cur ++ String c "")%string r
  end.

Definition split (s : string) : list string := split_ws "" s.

(** [s.split(sep)] for a one-character separator. *)
Fixpoint split_on_aux (sep : ascii) (cur s : string) : list string :=
  match s with
  | EmptyString => [cur]
  | String c r =>
      if Ascii.eqb c sep
      then cur :: split_on_aux sep "" r
      else split_on_aux sep (cur ++ String c "")%string r
  end.

Definition split_on (sep : ascii) (s : string) : list string :=
  split_on_aux sep "" s.

(** [s.replace(c, by)] for a one-character needle. *)
Fixpoint replace_char (c : ascii) (by_ : string) (s : string) : string :=
  match s with
  | EmptyString => EmptyString
  | String d r =>
      if Ascii.eqb d c then (by_ ++ replace_char c by_ r)%string
      else String d (replace_char c by_ r)
  end.

(** [k in text] *)
Fixpoint contains (k text : string) : bool :=
  prefix k text ||
  match text with
  | EmptyString => false
  | String _ r => contains k r
  end.

(** [s.startswith(p)] *)
Definition startswith (s p : string) : bool := prefix p s.

Fixpoint drop (n : nat) (s : string) : string :=
  match n, s with
  | S k, String _ r => drop k r
  | _, _ => s
  end.

(** [s[:n]] *)
Fixpoint take (n : nat) (s : string) : string :=
  match n, s with
  | S k, String c r => String c (take k r)
  | _, _ => EmptyString
  end.

Definition join (l : list string) : string :=
  fold_right append "" l.

(** *** [float(s)] for a text of digits and dots

    After the scripts' [re.sub(r"[^\d.]", "", ...)] the text holds only
    digits and dots.  Such a text is a float literal when it has at most
    one dot and at least one digit; its value is the decimal number,
    rounded once to the nearest binary64 (ties to even). *)

Definition digit_val (c : ascii) : Z := Z.of_nat (nat_of_ascii c - 48).

Fixpoint digits_to_Z (acc : Z) (s : string) : Z :=
  match s with
  | EmptyString => acc
  | String c r => digits_to_Z (10 * acc + digit_val c)%Z r
  end.

Definition is_dot (c : ascii) : bool := Ascii.eqb c ".".

(** The nearest binary64 to [n / d], for [0 <= n] and [0 < d], with the
    sign [s]: one correctly rounded division of exact integers. *)
Definition float_of_ratio (s : bool) (n : Z) (d : positive) : float :=
  match n with
  | Zpos p =>
      SF2Prim (SFdiv prec emax (S754_finite s p 0) (S754_finite false d 0))
  | _ => if s then neg_zero else zero
  end.

(** [None] stands for [ValueError]. *)
Definition float_of_decimal (s : string) : option float :=
  let digs := sfilter isdigit s in
  let dots := String.length (sfilter is_dot s) in
  if is_empty digs || (1 <? dots) then None
  else
    let frac :=
      match index 0 "." s with
      | Some i => String.length s - (i + 1)
      | None => 0
      end in
    Some (float_of_ratio false (digits_to_Z 0 digs)
                         (Z.to_pos (10 ^ Z.of_nat frac))).

(** *** [round(x, 2)]

    CPython prints the exact binary value of [x] with two digits after the
    point, correctly rounded with ties to even, and reads the decimal
    back; NaN and the infinities are returned as they are. *)

Definition rne_div (n d : Z) : Z :=
  let q := (n / d)%Z in
  match (2 * (n mod d) ?= d)%Z with
  | Lt => q
  | Gt => (q + 1)%Z
  | Eq => if Z.even q then q else (q + 1)%Z
  end.

Definition round2 (x : float) : float :=
  match Prim2SF x with
  | S754_finite s m e =>
      let hundredths :=
        match e with
        | Zneg p => rne_div (100 * Zpos m) (2 ^ Zpos p)
        | _ => (100 * Zpos m * 2 ^ e)%Z
        end in
      float_of_ratio s hundredths 100
  | _ => x
  end.

End Py.


(** A cell of a table read from a CSV file: the text of the field, or
    [None] for an empty field (pandas [NaN]). *)
Definition cell := option string.

(** [str(v)] of a cell: the text, or ["nan"]. *)
Definition cell_str (v : cell) : string :=
  match v with Some s => s | None => "nan" end.

(* ================================================================= *)
(** ** clean_data.py *)

Module CleanData.
Import Py.

(** *** The four word-boundary substitutions of [basic_normalize]

    Each pattern is [\b(alt1|alt2)\b] where an alternative is a literal
    word, optionally followed by [\.?].  The pair [(lit, optdot)] stands
    for [lit\.?] when [optdot] holds and for [lit] otherwise. *)

Definition word_at (s : string) : bool :=
  match s with String c _ => isword c | EmptyString => false end.

(** Length of the match of one alternative followed by [\b], at the head
    of [s].  The optional dot is greedy: it is taken first, and given
    back when no word boundary follows it. *)
Definition match_alt (s : string) (alt : string * bool) : option nat :=
  let '(lit, optdot) := alt in
  if prefix lit s then
    let n := String.length lit in
    let rest := drop n s in
    if optdot && prefix "." rest && word_at (drop 1 rest) then Some (S n)
    else if word_at rest then None else Some n
  else None.

Fixpoint first_match (alts : list (string * bool)) (s : string) : option nat :=
  match alts with
  | [] => None
  | a :: r => match match_alt s a with
              | Some n => Some n
              | None => first_match r s
              end
  end.

(** [re.sub(r'\b(alts)\b', repl, s)]: leftmost matches, left to right,
    without overlap.  [prevw] tells whether the previous character of the
    subject is a word character; [skip] counts the characters of a match
    still to be consumed. *)
Fixpoint re_sub_aux (alts : list (string * bool)) (repl : string)
         (prevw : bool) (skip : nat) (s : string) : string :=
  match s with
  | EmptyString => EmptyString
  | String c r =>
      match skip with
      | S k => re_sub_aux alts repl (isword c) k r
      | O =>
          match (if prevw then None else first_match alts s) with
          | Some (S k) => (repl ++ re_sub_aux alts repl (isword c) k r)%string
          | _ => String c (re_sub_aux alts repl (isword c) O r)
          end
      end
  end.

Definition re_sub_words (alts : list (string * bool)) (repl s : string) : string :=
  re_sub_aux alts repl false 0 s.

(** [re.sub(r'\s+', ' ', s)] *)
Fixpoint collapse_ws (in_run : bool) (s : string) : string :=
  match s with
  | EmptyString => EmptyString
  | String c r =>
      if isspace c
      then (if in_run then collapse_ws true r else String " " (collapse_ws true r))
      else String c (collapse_ws false r)
  end.

Definition basic_normalize (text : cell) : string :=
  match text with
  | None => ""
  | Some t =>
      let text := lower (strip t) in
      let text := re_sub_words [("ltd", true); ("limited", false)] "limited" text in
      let text := re_sub_words [("plc", true)] "plc" text in
      let text := re_sub_words [("co", true)] "company" text in
      let text := re_sub_words [("gov", true); ("govt", false)] "government" text in
      let text := replace_char "&" "and" text in
      collapse_ws false text
  end.

Definition first_char (w : string) : string :=
  match w with String c _ => String c "" | EmptyString => "" end.

Definition acronym (text : string) : string :=
  upper (join (map first_char (filter truthy (split text)))).

(** *** [build_canonical_map] *)

(** [names.dropna()] *)
Fixpoint dropna (names : list cell) : list string :=
  match names with
  | [] => []
  | Some n :: r => n :: dropna r
  | None :: r => dropna r
  end.

Definition mem (x : string) (l : list string) : bool :=
  existsb (String.eqb x) l.

(** [Series.unique()]: the distinct values in order of first appearance. *)
Fixpoint unique_from (seen : list string) (l : list string) : list string :=
  match l with
  | [] => []
  | x :: r => if mem x seen then unique_from seen r
              else x :: unique_from (x :: seen) r
  end.

Definition unique (l : list string) : list string := unique_from [] l.

Definition cluster_key (name : string) : string :=
  let norm := basic_normalize (Some name) in
  if 1 <? List.length (split norm) then acronym norm else upper norm.

(** The [defaultdict(list)], as an association list in insertion order of
    the keys. *)
Definition clusters_t := list (string * list string).

(** [clusters[key].append(name)] *)
Fixpoint cluster_append (key name : string) (clusters : clusters_t) : clusters_t :=
  match clusters with
  | [] => [(key, [name])]
  | (k, variants) :: r =>
      if String.eqb k key then (k, variants ++ [name]) :: r
      else (k, variants) :: cluster_append key name r
  end.

Definition build_clusters (names : list cell) : clusters_t :=
  fold_left (fun clusters name => cluster_append (cluster_key name) name clusters)
            (unique (dropna names)) [].

(** [v.replace(" ", "").upper()] *)
Definition acronym_form (v : string) : string :=
  upper (replace_char " " "" v).

Definition acronym_matches (key : string) (variants : list string) : list string :=
  filter (fun v => String.eqb (acronym_form v) key) variants.

(** [Counter(variants)]: the counts, in order of first appearance. *)
Fixpoint counter_add (x : string) (c : list (string * nat)) : list (string * nat) :=
  match c with
  | [] => [(x, 1)]
  | (y, n) :: r => if String.eqb y x then (y, S n) :: r
                   else (y, n) :: counter_add x r
  end.

Definition Counter (l : list string) : list (string * nat) :=
  fold_left (fun c x => counter_add x c) l [].

(** [most_common(1)] is [max(items, key=count)]: the first item of
    maximal count. *)
Fixpoint max_by_count (best : string * nat) (l : list (string * nat)) : string * nat :=
  match l with
  | [] => best
  | item :: r => if snd best <? snd item then max_by_count item r
                 else max_by_count best r
  end.

Definition most_common1 (c : list (string * nat)) : list (string * nat) :=
  match c with
  | [] => []
  | item :: r => [max_by_count item r]
  end.

(** The canonical name of one cluster; [None] stands for the
    [IndexError] of [most_common(1)[0]] on an empty cluster. *)
Definition choose_canonical (key : string) (variants : list string) : option string :=
  match acronym_matches key variants with
  | m :: _ => Some m
  | [] => match most_common1 (Counter variants) with
          | (v, _) :: _ => Some v
          | [] => None
          end
  end.

Record map_row := {
  buyer_name_raw : string;
  buyer_name_canonical : string
}.

Definition cluster_rows (canonical : string) (variants : list string) : list map_row :=
  map (fun v => {| buyer_name_raw := v; buyer_name_canonical := canonical |}) variants.

(** The loop over [clusters.items()]. *)
Fixpoint canonical_rows (clusters : clusters_t) : option (list map_row) :=
  match clusters with
  | [] => Some []
  | (key, variants) :: r =>
      match choose_canonical key variants with
      | None => None
      | Some canonical =>
          match canonical_rows r with
          | None => None
          | Some rows => Some (cluster_rows canonical variants ++ rows)
          end
      end
  end.

Definition build_canonical_map (names : list cell) : option (list map_row) :=
  canonical_rows (build_clusters names).

(** *** [clean_financials] and [run] *)

Definition keep_digits_dots (s : string) : string :=
  sfilter (fun c => isdigit c || is_dot c) s.

Definition clean_financials (val : cell) : float :=
  match val with
  | None => 0%float
  | Some s =>
      match float_of_decimal (keep_digits_dots s) with
      | Some f => f
      | None => 0%float
      end
  end.

(** A row of the input table; the columns the script does not touch are
    carried along unchanged. *)
Record contract (amount : Type) := {
  ocid : cell;
  buyer_name : cell;
  buyer_name_raw_col : cell;
  value_amount : amount;
  title : cell;
  description : cell
}.
Arguments ocid {amount}.
Arguments buyer_name {amount}.
Arguments buyer_name_raw_col {amount}.
Arguments value_amount {amount}.
Arguments title {amount}.
Arguments description {amount}.

Definition cell_eqb (a b : cell) : bool :=
  match a, b with
  | Some x, Some y => String.eqb x y
  | None, None => true
  | _, _ => false
  end.

(** The left merge on [buyer_name_raw]: the canonical name of the first
    row of the map with that raw name; a missing name stays missing. *)
Definition lookup_canonical (buyer_map : list map_row) (raw : cell) : cell :=
  match raw with
  | None => None
  | Some n =>
      match find (fun r => String.eqb (buyer_name_raw r) n) buyer_map with
      | Some r => Some (buyer_name_canonical r)
      | None => None
      end
  end.

(** [drop_duplicates(subset=["ocid"])]: the first row of every ocid. *)
Fixpoint drop_duplicates_from {A} (seen : list cell) (df : list (contract A))
  : list (contract A) :=
  match df with
  | [] => []
  | r :: rest =>
      if existsb (cell_eqb (ocid r)) seen then drop_duplicates_from seen rest
      else r :: drop_duplicates_from (ocid r :: seen) rest
  end.

Definition drop_duplicates {A} (df : list (contract A)) : list (contract A) :=
  drop_duplicates_from [] df.

Definition rewrite_row (buyer_map : list map_row) (r : contract cell) : contract float :=
  {| ocid := ocid r;
     buyer_name := lookup_canonical buyer_map (buyer_name r);
     buyer_name_raw_col := buyer_name r;
     value_amount := clean_financials (value_amount r);
     title := title r;
     description := description r |}.

(** [run], from the table read to the two tables written: the cleaned
    contracts and the buyer map.  [None] stands for an exception; a map
    without rows is a frame without columns, on which the merge raises
    [KeyError]. *)
Definition run (df : list (contract cell))
  : option (list (contract float) * list map_row) :=
  match build_canonical_map (map buyer_name df) with
  | None => None
  | Some [] => None
  | Some buyer_map =>
      let df := map (rewrite_row buyer_map) df in
      let df := drop_duplicates df in
      let df := filter (fun r => (0 <? value_amount r)%float) df in
      Some (df, buyer_map)
  end.

End CleanData.

(* ================================================================= *)
(** ** pqe_engine.py *)

Module PqeEngine.
Import Py.

Definition MIN_SPEND_GBP : float := 5000%float.

(** [str(val)] does not raise on a cell, and [float] is applied to a
    non-empty text only; its [ValueError] is caught. *)
Definition clean_currency (val : cell) : float :=
  let clean_str := sfilter (fun c => isdigit c || is_dot c) (cell_str val) in
  if truthy clean_str then
    match float_of_decimal clean_str with
    | Some f => f
    | None => 0%float
    end
  else 0%float.

(** A row of the material reference table.  The two numeric columns hold
    binary64 values, NaN for an empty field. *)
Record material := {
  material_id : cell;
  material_name : cell;
  keywords : cell;
  composite_price_gbp_per_tonne : float;
  carbon_factor_kgco2e_per_tonne : float;
  ice_source_ref : cell
}.

(** [[k.strip().lower() for k in str(...).split("|") if k.strip()]] *)
Definition keyword_list (row : material) : list string :=
  map (fun k => lower (strip k))
      (filter (fun k => truthy (strip k))
              (split_on "|" (cell_str (keywords row)))).

(** [any(k and k in text for k in keywords)] *)
Definition any_keyword_in (text : string) (kws : list string) : bool :=
  existsb (fun k => truthy k && contains k text) kws.

(** The test of the loop: [str(material_id).upper() == "MAT_GEN"]. *)
Definition skipped_as_generic (row : material) : bool :=
  String.eqb (upper (cell_str (material_id row))) "MAT_GEN".

(** The test of the fallback: [ref_df["material_id"] == "MAT_GEN"]. *)
Definition is_mat_gen (row : material) : bool :=
  match material_id row with
  | Some s => String.eqb s "MAT_GEN"
  | None => false
  end.

(** The [for] loop of [detect_material] over the rows, [text] already
    lower-cased. *)
Fixpoint scan_rows (text : string) (rows : list material) : option material :=
  match rows with
  | [] => None
  | row :: rest =>
      if skipped_as_generic row then scan_rows text rest
      else if any_keyword_in text (keyword_list row) then Some row
      else scan_rows text rest
  end.

Definition detect_material (text : string) (ref_df : list material) : option material :=
  let text := lower text in
  match scan_rows text ref_df with
  | Some row => Some row
  | None =>
      match filter is_mat_gen ref_df with
      | gen0 :: _ => Some gen0
      | [] => None
      end
  end.

(** A row of the cleaned contract table. *)
Record contract := {
  ocid : cell;
  title : cell;
  description : cell;
  value_amount : cell;
  buyer_name : cell
}.

Inductive risk_category := LOW | MEDIUM | HIGH | CRITICAL.

Inductive pqe_status :=
  CALCULATED | SKIPPED_LOW_VALUE | SKIPPED_NO_REF | SKIPPED_INVALID_REF.

(** The keys added to a row marked [CALCULATED]. *)
Record estimate := {
  detected_material_id : cell;
  detected_material_name : cell;
  applied_price_rate : float;
  applied_carbon_factor : float;
  est_material_tonnes : float;
  est_co2e_tonnes : float;
  co2e_range_low : float;
  co2e_range_high : float;
  risk_category_of : risk_category;
  data_source_ref : cell
}.

(** What the engine adds to [row.to_dict()], by status. *)
Inductive enrichment :=
| LowValue
| NoRef
| InvalidRef (ref_price ref_factor : float)
| Calculated (e : estimate).

Record risk_record := {
  source_row : contract;
  added : enrichment
}.

Definition status_of (r : risk_record) : pqe_status :=
  match added r with
  | LowValue => SKIPPED_LOW_VALUE
  | NoRef => SKIPPED_NO_REF
  | InvalidRef _ _ => SKIPPED_INVALID_REF
  | Calculated _ => CALCULATED
  end.

(** [float(x or 0)] on a binary64 [x]: a zero of either sign is falsy and
    gives [0.0]; every other value, NaN included, is kept. *)
Definition float_or_zero (x : float) : float :=
  if (x =? 0)%float then 0%float else x.

Definition risk_tier (est_co2e : float) : risk_category :=
  if (1000 <=? est_co2e)%float then CRITICAL
  else if (250 <=? est_co2e)%float then HIGH
  else if (50 <=? est_co2e)%float then MEDIUM
  else LOW.

(** [title or ""] and the f-string: a missing cell is a (truthy) NaN and
    prints as ["nan"]. *)
Definition full_text (row : contract) : string :=
  (cell_str (title row) ++ " " ++ cell_str (description row))%string.

(** The body of the loop over the contracts. *)
Definition screen_contract (materials : list material) (row : contract) : risk_record :=
  let spend_gbp := clean_currency (value_amount row) in
  if (spend_gbp <? MIN_SPEND_GBP)%float then
    {| source_row := row; added := LowValue |}
  else
    match detect_material (full_text row) materials with
    | None => {| source_row := row; added := NoRef |}
    | Some mat =>
        let price := float_or_zero (composite_price_gbp_per_tonne mat) in
        let factor := float_or_zero (carbon_factor_kgco2e_per_tonne mat) in
        if (price <=? 0)%float || (factor <=? 0)%float then
          {| source_row := row;
             added := InvalidRef (composite_price_gbp_per_tonne mat)
                                 (carbon_factor_kgco2e_per_tonne mat) |}
        else
          let est_tonnes := (spend_gbp / price)%float in
          let est_co2e := ((est_tonnes * factor) / 1000)%float in
          let low_bound := (est_co2e * 0.75)%float in
          let high_bound := (est_co2e * 1.25)%float in
          let risk := risk_tier est_co2e in
          {| source_row := row;
             added := Calculated
               {| detected_material_id := material_id mat;
                  detected_material_name := material_name mat;
                  applied_price_rate := price;
                  applied_carbon_factor := factor;
                  est_material_tonnes := round2 est_tonnes;
                  est_co2e_tonnes := round2 est_co2e;
                  co2e_range_low := round2 low_bound;
                  co2e_range_high := round2 high_bound;
                  risk_category_of := risk;
                  data_source_ref := ice_source_ref mat |} |}
    end.

(** The column [est_co2e_tonnes] of [pd.DataFrame(results)]: NaN where
    the row has no such key. *)
Definition co2e_column (r : risk_record) : float :=
  match added r with
  | Calculated e => est_co2e_tonnes e
  | _ => nan
  end.

Definition has_co2e_key (r : risk_record) : bool :=
  match added r with Calculated _ => true | _ => false end.

(** [fillna(-1)] *)
Definition sort_helper (r : risk_record) : float :=
  let v := co2e_column r in
  if is_nan v then (-1)%float else v.

(** [sort_values(by="sort_helper", ascending=False)]: the rows by
    descending key.  The order pandas gives to rows of equal key is not
    specified; here they keep their order. *)
Fixpoint insert_desc (r : risk_record) (sorted : list risk_record) : list risk_record :=
  match sorted with
  | [] => [r]
  | x :: rest =>
      if (sort_helper r <? sort_helper x)%float then x :: insert_desc r rest
      else r :: sorted
  end.

Definition sort_values_desc (df : list risk_record) : list risk_record :=
  fold_right insert_desc [] df.

(** [run_pqe_engine], from the two tables read to the table written. *)
Definition run_pqe_engine (contracts : list contract) (materials : list material)
  : list risk_record :=
  let results := map (screen_contract materials) contracts in
  if existsb has_co2e_key results then sort_values_desc results else results.

End PqeEngine.

(* ================================================================= *)
(** ** ingest/contracts_finder.py *)

Module ContractsFinder.
Import Py.

(** A Python number: [int] or [float]. *)
Inductive pynum := PyInt (z : Z) | PyFloat (f : float).

Definition START_DATE := "2025-01-01".
Definition END_DATE := "2025-12-31".
Definition PAGE_LIMIT : nat := 100.
(** [0.7]: the binary64 value nearest to seven tenths. *)
Definition SLEEP_SECONDS : pynum := PyFloat 0x1.6666666666666p-1.
Definition MAX_RETRIES : nat := 5.
Definition CIVIL_WORKS_CPVS : list string := ["45"; "71"].
Definition API_URL :=
  "https://www.contractsfinder.service.gov.uk/Published/Notices/OCDS/Search".

(** *** The payload of the remote listing

    A key of a JSON object is absent, [null], or holds a value.
    [d.get(k)] is [get], [d.get(k, default)] is [get_default]. *)

Inductive field (A : Type) := Absent | Null | Val (a : A).
Arguments Absent {A}.
Arguments Null {A}.
Arguments Val {A}.

Definition get {A} (f : field A) : option A :=
  match f with Val a => Some a | _ => None end.

Definition get_default {A} (f : field A) (default : A) : option A :=
  match f with Absent => Some default | Null => None | Val a => Some a end.

(** An element of a classification list: a dict with its ["id"], or
    something else. *)
Inductive cls_item := NotADict | ItemDict (id : option string).

(** The value under ["classification"]: a dict with its ["id"], a list,
    or neither. *)
Inductive classification :=
| NoClassification
| ClsDict (id : option string)
| ClsList (items : list cls_item).

(** A dict under ["value"]. *)
Record value_obj := {
  amount : option pynum;
  currency : field string
}.

Record tender_obj := {
  t_classification : classification;
  t_value : option value_obj;
  t_title : field string;
  t_description : option string;
  t_status : option string
}.

Definition empty_tender : tender_obj :=
  {| t_classification := NoClassification; t_value := None;
     t_title := Absent; t_description := None; t_status := None |}.

Record buyer_obj := { b_id : option string; b_name : field string }.

Definition empty_buyer : buyer_obj := {| b_id := None; b_name := Absent |}.

Record party_obj := {
  p_id : option string;
  p_country : option (field string)   (** [None]: no address dict *)
}.

Record release_obj := {
  r_ocid : option string;
  r_tender : field tender_obj;
  r_classification : classification;
  r_value : option value_obj;
  r_date : option string;
  r_buyer : option buyer_obj;
  r_parties : list party_obj
}.

Record page := {
  releases : list release_obj;
  next_link : option string
}.

(** [body] is [None] when [response.json()] raises. *)
Record response := {
  status_code : nat;
  body : option page
}.

Record request := {
  url : option string;
  params : option (nat * string * string)
}.

(** *** The world: the network, the clock and the cursor file *)

Inductive get_outcome := Returned (r : response) | RequestException.

Inductive event :=
| Requested (req : request)
| Slept (seconds : pynum)
| CursorSaved (cursor_url : string).

Record world := {
  calls : nat;               (** [requests.get] calls made so far *)
  trace : list event;        (** what was done, oldest first *)
  cursor_file : option string
}.

Definition log (e : event) (w : world) : world :=
  {| calls := calls w; trace := trace w ++ [e]; cursor_file := cursor_file w |}.

Definition count_call (w : world) : world :=
  {| calls := S (calls w); trace := trace w; cursor_file := cursor_file w |}.

Definition save_last_cursor (cursor_url : string) (w : world) : world :=
  log (CursorSaved cursor_url)
      {| calls := calls w; trace := trace w; cursor_file := Some cursor_url |}.

Definition load_last_cursor (w : world) : option string :=
  option_map strip (cursor_file w).

(** *** Helpers *)

Definition normalize_cpv (raw : option string) : string :=
  match raw with
  | None => "UNKNOWN"
  | Some s =>
      if is_empty s then "UNKNOWN"
      else let digits := sfilter isdigit s in
           if is_empty digits then "UNKNOWN" else digits
  end.

(** The first element that is a dict with a truthy ["id"]. *)
Fixpoint first_item_id (items : list cls_item) : option string :=
  match items with
  | [] => None
  | ItemDict (Some id) :: rest =>
      if truthy id then Some id else first_item_id rest
  | _ :: rest => first_item_id rest
  end.

Definition release_cpv (release : release_obj) : string :=
  match r_classification release with
  | ClsDict id => normalize_cpv id
  | _ => "UNKNOWN"
  end.

(** [tender] is [None] for a [null] tender; an empty dict is falsy and
    has no classification either. *)
Definition extract_cpv (tender : option tender_obj) (release : release_obj) : string :=
  let classification :=
    match tender with
    | Some t => t_classification t
    | None => NoClassification
    end in
  match classification with
  | ClsDict id => normalize_cpv id
  | ClsList items =>
      match first_item_id items with
      | Some id => normalize_cpv (Some id)
      | None => release_cpv release
      end
  | NoClassification => release_cpv release
  end.

Definition value_of (v : option value_obj) : option (pynum * option string) :=
  match v with
  | Some vo =>
      match amount vo with
      | Some a => Some (a, get_default (currency vo) "GBP")
      | None => None
      end
  | None => None
  end.

Definition extract_value (tender : option tender_obj) (release : release_obj)
  : pynum * option string :=
  match value_of (match tender with Some t => t_value t | None => None end) with
  | Some r => r
  | None =>
      match value_of (r_value release) with
      | Some r => r
      | None => (PyInt 0, Some "GBP")
      end
  end.

Definition opt_eqb (a b : option string) : bool :=
  match a, b with
  | Some x, Some y => String.eqb x y
  | None, None => true
  | _, _ => false
  end.

(** The loop over the parties: the last party with the buyer's id
    decides. *)
Definition buyer_country_of (buyer : buyer_obj) (parties : list party_obj)
  : option string :=
  fold_left
    (fun country p =>
       if opt_eqb (p_id p) (b_id buyer)
       then match p_country p with
            | Some c => get_default c "GB"
            | None => Some "GB"
            end
       else country)
    parties (Some "GB").

(** *** The accumulated records *)

Record contract := {
  ocid : string;
  title : option string;
  description : string;
  cpv_code : string;
  value_amount : pynum;
  currency_code : option string;
  published_date : option string;
  buyer_name : option string;
  buyer_country : option string;
  tender_status : option string;
  source : string
}.

Record accumulator := {
  all_contracts : list contract;
  seen_ocids : list string
}.

Inductive outcome (A : Type) :=
| Ok (a : A)
| Raised (a : A).   (** an exception, with the state it leaves behind *)
Arguments Ok {A}.
Arguments Raised {A}.

Definition accepted_prefix (cpv : string) : bool :=
  existsb (fun prefix => startswith cpv prefix) CIVIL_WORKS_CPVS.

(** The body of [for release in releases].  A [null] tender makes
    [tender.get("title", ...)] raise [AttributeError]. *)
Definition process_release (acc : accumulator) (release : release_obj)
  : outcome accumulator :=
  match r_ocid release with
  | None => Ok acc
  | Some ocid_ =>
      if is_empty ocid_ || CleanData.mem ocid_ (seen_ocids acc) then Ok acc
      else
        let tender := get_default (r_tender release) empty_tender in
        let cpv := extract_cpv tender release in
        if String.eqb cpv "UNKNOWN" then Ok acc
        else if negb (accepted_prefix cpv) then Ok acc
        else
          let '(amount_, currency_) := extract_value tender release in
          let buyer := match r_buyer release with
                       | Some b => b
                       | None => empty_buyer
                       end in
          let country := buyer_country_of buyer (r_parties release) in
          match tender with
          | None => Raised acc
          | Some t =>
              let row :=
                {| ocid := ocid_;
                   title := get_default (t_title t) "Unknown";
                   description :=
                     take 500 (match t_description t with
                               | Some d => d
                               | None => ""
                               end);
                   cpv_code := cpv;
                   value_amount := amount_;
                   currency_code := currency_;
                   published_date := r_date release;
                   buyer_name := get_default (b_name buyer) "Unknown";
                   buyer_country := country;
                   tender_status := t_status t;
                   source := "UK Contracts Finder" |} in
              Ok {| all_contracts := all_contracts acc ++ [row];
                    seen_ocids := ocid_ :: seen_ocids acc |}
          end
  end.

Fixpoint process_page (acc : accumulator) (rs : list release_obj)
  : outcome accumulator :=
  match rs with
  | [] => Ok acc
  | release :: rest =>
      match process_release acc release with
      | Ok acc' => process_page acc' rest
      | Raised acc' => Raised acc'
      end
  end.

Section Network.

(** The outcome of the [n]-th call of [requests.get] of the run, for
    the request made. *)
Variable requests_get : nat -> request -> get_outcome.

Inductive fetched := Got (r : response) | RuntimeError.

(** The [for attempt in range(retries)] loop, from [attempt] on with
    [remaining] iterations left. *)
Fixpoint safe_get_from (req : request) (backoff attempt remaining : nat)
         (w : world) : fetched * world :=
  match remaining with
  | O => (RuntimeError, w)
  | S k =>
      let w := log (Requested req) w in
      match requests_get (calls w) req with
      | Returned r => (Got r, count_call w)
      | RequestException =>
          safe_get_from req backoff (S attempt) k
            (log (Slept (PyInt (Z.of_nat (backoff * (attempt + 1)))))
                 (count_call w))
      end
  end.

Definition safe_get (req : request) (retries backoff : nat) (w : world)
  : fetched * world :=
  safe_get_from req backoff 0 retries w.

(** *** The ingestion loop *)

Record run_state := {
  acc : accumulator;
  next_url : option string;
  first_page : bool;
  page_count : nat;
  the_world : world
}.

Inductive exit := Finished | Interrupted | StillRunning.

Definition first_request : request :=
  {| url := Some API_URL;
     params := Some (PAGE_LIMIT, START_DATE, END_DATE) |}.

(** [fuel] bounds the number of pages fetched: the [while True] loop
    ends only when the remote listing ends it. *)
Fixpoint fetch_loop (fuel : nat) (st : run_state) : run_state * exit :=
  match fuel with
  | O => (st, StillRunning)
  | S fuel' =>
      let req := if first_page st then first_request
                 else {| url := next_url st; params := None |} in
      let '(got, w) := safe_get req MAX_RETRIES 2 (the_world st) in
      let st := {| acc := acc st; next_url := next_url st;
                   first_page := false;
                   page_count := S (page_count st);
                   the_world := w |} in
      match got with
      | RuntimeError => (st, Interrupted)
      | Got resp =>
          if negb (status_code resp =? 200) then (st, Finished)
          else
            match body resp with
            | None => (st, Interrupted)
            | Some data =>
                match releases data with
                | [] => (st, Finished)
                | rs =>
                    match process_page (acc st) rs with
                    | Raised acc' =>
                        ({| acc := acc'; next_url := next_url st;
                            first_page := false;
                            page_count := page_count st;
                            the_world := w |}, Interrupted)
                    | Ok acc' =>
                        match next_link data with
                        | Some next =>
                            if truthy next then
                              fetch_loop fuel'
                                {| acc := acc'; next_url := Some next;
                                   first_page := false;
                                   page_count := page_count st;
                                   the_world :=
                                     log (Slept SLEEP_SECONDS)
                                         (save_last_cursor next w) |}
                            else
                              ({| acc := acc'; next_url := next_url st;
                                  first_page := false;
                                  page_count := page_count st;
                                  the_world := w |}, Finished)
                        | None =>
                            ({| acc := acc'; next_url := next_url st;
                                first_page := false;
                                page_count := page_count st;
                                the_world := w |}, Finished)
                        end
                    end
                end
            end
      end
  end.

Definition initial_state (w : world) : run_state :=
  let next := load_last_cursor w in
  {| acc := {| all_contracts := []; seen_ocids := [] |};
     next_url := next;
     first_page := match next with None => true | Some _ => false end;
     page_count := 0;
     the_world := w |}.

(** [df.drop_duplicates(subset="ocid")] on the accumulated rows. *)
Fixpoint drop_duplicates_from (seen : list string) (df : list contract)
  : list contract :=
  match df with
  | [] => []
  | r :: rest =>
      if CleanData.mem (ocid r) seen then drop_duplicates_from seen rest
      else r :: drop_duplicates_from (ocid r :: seen) rest
  end.

(** The run, up to [fuel] pages: the state reached, how the loop was
    left, and the table written ([None]: nothing is written). *)
Definition fetch_2025_construction_contracts (fuel : nat) (w : world)
  : run_state * exit * option (list contract) :=
  let '(st, how) := fetch_loop fuel (initial_state w) in
  (st, how,
   match all_contracts (acc st) with
   | [] => None
   | rows => Some (drop_duplicates_from [] rows)
   end).

End Network.

End ContractsFinder.


(* ================================================================= *)
(** ** ingest/only.py *)

Module StrictFilter.
Import Py.

Definition ALLOWED_PREFIXES : list string :=
  ["451"; "4520"; "4522"; "4523"; "4524"; "4525"].

(** A row of the table read from the ingestion output. *)
Record row := {
  ocid : cell;
  title : cell;
  cpv_code : cell;
  value_amount : cell;
  buyer_name : cell
}.

(** [df['cpv_code'].astype(str).str.strip()] on one row. *)
Definition strip_code (r : row) : row :=
  {| ocid := ocid r;
     title := title r;
     cpv_code := Some (strip (cell_str (cpv_code r)));
     value_amount := value_amount r;
     buyer_name := buyer_name r |}.

(** [str.startswith(ALLOWED_PREFIXES)] *)
Definition civil_mask (r : row) : bool :=
  existsb (fun p => startswith (cell_str (cpv_code r)) p) ALLOWED_PREFIXES.

(** [filter_strict_cpvs], from the table read to the table written. *)
Definition filter_strict_cpvs (df : list row) : list row :=
  filter civil_mask (map strip_code df).

End StrictFilter.
(* ================================================================= *)
(** ** Vocabulary of the statements *)


(** [x] is NaN or carries the sign [+], zeros of either sign included. *)
Definition nonneg_sf (x : spec_float) : Prop :=
  match x with
  | S754_nan | S754_zero _ => True
  | S754_infinity s | S754_finite s _ _ => s = false
  end.

(** [x] is NaN or strictly positive. *)
Definition pos_sf (x : spec_float) : Prop :=
  match x with
  | S754_nan => True
  | S754_zero _ => False
  | S754_infinity s | S754_finite s _ _ => s = false
  end.

Definition sign_is (s : bool) (x : spec_float) : Prop :=
  match x with
  | S754_nan => True
  | S754_zero s' | S754_infinity s' | S754_finite s' _ _ => s' = s
  end.


(** What one failed attempt of [safe_get] does: the request, then the wait. *)
Definition backoff_events (req : ContractsFinder.request) (backoff attempt : nat) : list ContractsFinder.event :=
  [ContractsFinder.Requested req; ContractsFinder.Slept (ContractsFinder.PyInt (Z.of_nat (backoff * (attempt + 1))))].


(** A network on which every request fails, and a world in which nothing
    has happened yet. *)
Definition network_down (n : nat) (req : ContractsFinder.request)
  : ContractsFinder.get_outcome := ContractsFinder.RequestException.

Definition fresh_world : ContractsFinder.world :=
  {| ContractsFinder.calls := 0;
     ContractsFinder.trace := [];
     ContractsFinder.cursor_file := None |}.

(** The accumulator a [process_release] result leaves behind. *)
Definition left_behind (o : ContractsFinder.outcome ContractsFinder.accumulator)
  : ContractsFinder.accumulator :=
  match o with ContractsFinder.Ok a | ContractsFinder.Raised a => a end.

(** Every id accumulated is recorded as seen, and no id is accumulated
    twice. *)
Definition dedup_invariant (a : ContractsFinder.accumulator) : Prop :=
  NoDup (map ContractsFinder.ocid (ContractsFinder.all_contracts a)) /\
  forall o, In o (map ContractsFinder.ocid (ContractsFinder.all_contracts a)) ->
            In o (ContractsFinder.seen_ocids a).

(** A stored code: digits only, under an accepted prefix. *)
Definition civil_code (cpv : string) : Prop :=
  Py.sfilter Py.isdigit cpv = cpv /\
  (Py.startswith cpv "45" = true \/ Py.startswith cpv "71" = true).

(** A release with a tender whose classification is the dict [{"id": code}]. *)
Definition release_with_code (o : option string) (code : string)
  : ContractsFinder.release_obj :=
  {| ContractsFinder.r_ocid := o;
     ContractsFinder.r_tender :=
       ContractsFinder.Val
         {| ContractsFinder.t_classification :=
              ContractsFinder.ClsDict (Some code);
            ContractsFinder.t_value := None;
            ContractsFinder.t_title := ContractsFinder.Val "Bridge works";
            ContractsFinder.t_description := None;
            ContractsFinder.t_status := None |};
     ContractsFinder.r_classification := ContractsFinder.NoClassification;
     ContractsFinder.r_value := None;
     ContractsFinder.r_date := None;
     ContractsFinder.r_buyer := None;
     ContractsFinder.r_parties := [] |}.

(** A listing of two pages: the second repeats an id of the first and
    holds a release without id. *)
Definition two_page_listing (n : nat) (req : ContractsFinder.request)
  : ContractsFinder.get_outcome :=
  match n with
  | 0 =>
      ContractsFinder.Returned
        {| ContractsFinder.status_code := 200;
           ContractsFinder.body :=
             Some {| ContractsFinder.releases :=
                       [release_with_code (Some "ocds-1") "45210000-2";
                        release_with_code (Some "ocds-2") "98000000"];
                     ContractsFinder.next_link := Some "page-2" |} |}
  | 1 =>
      ContractsFinder.Returned
        {| ContractsFinder.status_code := 200;
           ContractsFinder.body :=
             Some {| ContractsFinder.releases :=
                       [release_with_code (Some "ocds-1") "45210000-2";
                        release_with_code None "45000000";
                        release_with_code (Some "ocds-3") "71000000"];
                     ContractsFinder.next_link := None |} |}
  | _ => ContractsFinder.RequestException
  end.

(** A one-row reference table and three contracts for it. *)
Definition steel : PqeEngine.material :=
  {| PqeEngine.material_id := Some "MAT_STEEL";
     PqeEngine.material_name := Some "Structural steel";
     PqeEngine.keywords := Some "steel|rebar";
     PqeEngine.composite_price_gbp_per_tonne := 50%float;
     PqeEngine.carbon_factor_kgco2e_per_tonne := 100%float;
     PqeEngine.ice_source_ref := Some "ICE v3" |}.

Definition contract_for (id amount : string) : PqeEngine.contract :=
  {| PqeEngine.ocid := Some id;
     PqeEngine.title := Some "Steel footbridge";
     PqeEngine.description := None;
     PqeEngine.value_amount := Some amount;
     PqeEngine.buyer_name := Some "DfT" |}.

(** A reference table whose only row spells the generic id in lower
    case. *)
Definition lower_case_generic : PqeEngine.material :=
  {| PqeEngine.material_id := Some "mat_gen";
     PqeEngine.material_name := Some "Generic construction";
     PqeEngine.keywords := Some "steel";
     PqeEngine.composite_price_gbp_per_tonne := 50%float;
     PqeEngine.carbon_factor_kgco2e_per_tonne := 100%float;
     PqeEngine.ice_source_ref := None |}.



(** The two tests of [detect_material] for the generic row agree on a
    table. *)
Definition generic_spelled_exactly (ref_df : list PqeEngine.material) : Prop :=
  forall row, In row ref_df ->
              PqeEngine.skipped_as_generic row = PqeEngine.is_mat_gen row.

(** The names counted by a [Counter], in its order. *)
Definition counter_keys (c : list (string * nat)) : list string := map fst c.

(** [c[x]] for a [Counter]: the count under [x], 0 without one. *)
Definition count_in (c : list (string * nat)) (x : string) : nat :=
  match find (fun p => String.eqb (fst p) x) c with
  | Some p => snd p
  | None => 0
  end.

(** A cluster as [build_canonical_map] builds it: a non-empty list of
    distinct raw names that share the key. *)
Definition good_cluster (key : string) (variants : list string) : Prop :=
  variants <> [] /\
  (forall v, In v variants -> CleanData.cluster_key v = key) /\
  NoDup variants.


Definition dft_names : list cell :=
  [Some "Department for Transport"; Some "DfT";
   Some "Department for Transport"; None; Some "DFT"].

(** An input table of the cleaning run: a priced row, a row without
    amount and a row whose amount is no number. *)
Definition raw_row (id : string) (amount : cell) : CleanData.contract cell :=
  {| CleanData.ocid := Some id;
     CleanData.buyer_name := Some "DfT";
     CleanData.buyer_name_raw_col := None;
     CleanData.value_amount := amount;
     CleanData.title := Some "Resurfacing";
     CleanData.description := None |}.

Definition raw_table : list (CleanData.contract cell) :=
  [raw_row "ocds-1" (Some "GBP 1,500.50"); raw_row "ocds-2" None;
   raw_row "ocds-3" (Some "n/a")].

(* ================================================================= *)
(** ** Further vocabulary *)

(** A network that fails twice and then answers with a server error. *)
Definition flaky_network (n : nat) (req : ContractsFinder.request)
  : ContractsFinder.get_outcome :=
  match n with
  | 0 | 1 => ContractsFinder.RequestException
  | _ => ContractsFinder.Returned
           {| ContractsFinder.status_code := 503;
              ContractsFinder.body := None |}
  end.

(** A listing in which every page names a next page. *)
Definition endless_listing (n : nat) (req : ContractsFinder.request)
  : ContractsFinder.get_outcome :=
  ContractsFinder.Returned
    {| ContractsFinder.status_code := 200;
       ContractsFinder.body :=
         Some {| ContractsFinder.releases :=
                   [release_with_code (Some "ocds-1") "45210000-2"];
                 ContractsFinder.next_link := Some "https://next" |} |}.

(** A world in which a previous run has left a cursor. *)
Definition resumed_world : ContractsFinder.world :=
  {| ContractsFinder.calls := 0;
     ContractsFinder.trace := [];
     ContractsFinder.cursor_file := Some "https://page-7 " |}.

(** The request the run starts with: the stored cursor when there is one. *)
Definition opening_request (w : ContractsFinder.world) : ContractsFinder.request :=
  match ContractsFinder.load_last_cursor w with
  | None => ContractsFinder.first_request
  | Some u => {| ContractsFinder.url := Some u; ContractsFinder.params := None |}
  end.

(** What every accumulated row satisfies. *)
Definition well_formed_row (row : ContractsFinder.contract) : Prop :=
  ContractsFinder.ocid row <> "" /\
  String.length (ContractsFinder.description row) <= 500 /\
  ContractsFinder.source row = "UK Contracts Finder".

(** A release whose tender is [null] and whose own classification is the
    dict [{"id": code}]. *)
Definition release_with_null_tender (o code : string)
  : ContractsFinder.release_obj :=
  {| ContractsFinder.r_ocid := Some o;
     ContractsFinder.r_tender := ContractsFinder.Null;
     ContractsFinder.r_classification := ContractsFinder.ClsDict (Some code);
     ContractsFinder.r_value := None;
     ContractsFinder.r_date := None;
     ContractsFinder.r_buyer := None;
     ContractsFinder.r_parties := [] |}.

(** The tiers in their order. *)
Definition tier_rank (t : PqeEngine.risk_category) : nat :=
  match t with
  | PqeEngine.LOW => 0
  | PqeEngine.MEDIUM => 1
  | PqeEngine.HIGH => 2
  | PqeEngine.CRITICAL => 3
  end.

(** A reference row with a given id, keywords cell, price and factor. *)
Definition reference_row (id : string) (kw : cell) (price factor : float)
  : PqeEngine.material :=
  {| PqeEngine.material_id := Some id;
     PqeEngine.material_name := None;
     PqeEngine.keywords := kw;
     PqeEngine.composite_price_gbp_per_tonne := price;
     PqeEngine.carbon_factor_kgco2e_per_tonne := factor;
     PqeEngine.ice_source_ref := None |}.

(** The row is passed over by the loop of [detect_material] for the
    lower-cased text [text]. *)
Definition passed_over (text : string) (row : PqeEngine.material) : Prop :=
  PqeEngine.skipped_as_generic row = true \/
  PqeEngine.any_keyword_in text (PqeEngine.keyword_list row) = false.

(** The estimate of a record, when it has one. *)
Definition estimate_of (r : PqeEngine.risk_record) : option PqeEngine.estimate :=
  match PqeEngine.added r with
  | PqeEngine.Calculated e => Some e
  | _ => None
  end.

(** A table for the strict filter. *)
Definition coded_row (id : string) (code : cell) : StrictFilter.row :=
  {| StrictFilter.ocid := Some id;
     StrictFilter.title := None;
     StrictFilter.cpv_code := code;
     StrictFilter.value_amount := None;
     StrictFilter.buyer_name := None |}.

(** Names of which one stands alone under its key. *)
Definition mixed_names : list cell :=
  [Some "Highways England"; Some "HE"; None; Some "Transport for London";
   Some "highways  england"; Some "HIGHWAYS ENGLAND"].

(** An input of the cleaning run in which an id comes twice. *)
Definition repeated_table : list (CleanData.contract cell) :=
  [raw_row "ocds-1" (Some "1500"); raw_row "ocds-1" (Some "2500");
   raw_row "ocds-2" (Some "700")].


(** A buyer column in which the spelling met first is the rarer one. *)
Definition acme_column : list cell :=
  [Some "ACME CO"; Some "Acme Co"; Some "Acme Co"; Some "Acme Co"].

(** A reference row for steel whose price cell is empty, and two
    contracts: one below the spend gate, one above it. *)
Definition unpriced_steel : PqeEngine.material :=
  reference_row "MAT_STEEL" (Some "steel") nan 100.

Definition gate_contracts : list PqeEngine.contract :=
  [contract_for "ocds-1" "4,999.50"; contract_for "ocds-2" "100000"].
(* ================================================================= *)
(** ** Facts about binary64 comparison and signs *)

Section FloatFacts.

Lemma binary_round_aux_sign s m e l :
  sign_is s (binary_round_aux prec emax s m e l).
Proof.
  unfold binary_round_aux.
  destruct (shr_fexp prec emax m e l) as [mrs e'].
  destruct (shr_fexp prec emax _ e' loc_Exact) as [mrs' e''].
  destruct (shr_m mrs'); simpl; trivial.
  destruct (Z.leb e'' _); simpl; trivial.
Qed.

Lemma SFcompare_swap x y :
  SFcompare y x = option_map CompOpp (SFcompare x y).
Proof.
  destruct x as [sx|sx| |sx mx ex], y as [sy|sy| |sy my ey]; simpl;
    try reflexivity;
    try (destruct sx; reflexivity); try (destruct sy; reflexivity);
    try (destruct sx, sy; reflexivity).
  destruct sx, sy; simpl; try reflexivity;
    rewrite (Z.compare_antisym ey ex);
    destruct (Z.compare ey ex); simpl; try reflexivity;
    rewrite !Pos.compare_cont_spec; simpl;
    rewrite (Pos.compare_antisym my mx);
    destruct (Pos.compare my mx); reflexivity.
Qed.

Lemma SFcompare_refl x : x <> S754_nan -> SFcompare x x = Some Eq.
Proof.
  destruct x as [s|s| |s m e]; simpl; intros H; try congruence.
  - destruct s; reflexivity.
  - destruct s; rewrite Z.compare_refl, Pos.compare_cont_spec,
      Pos.compare_refl; reflexivity.
Qed.

Lemma Prim2SF_zero : Prim2SF 0%float = S754_zero false.
Proof. reflexivity. Qed.

Lemma is_nan_spec x : is_nan x = true <-> Prim2SF x = S754_nan.
Proof.
  unfold is_nan. rewrite eqb_spec. unfold SFeqb.
  destruct (Prim2SF x) as [s|s| |s m e] eqn:E.
  - simpl; split; discriminate.
  - destruct s; simpl; split; discriminate.
  - simpl; split; reflexivity.
  - rewrite SFcompare_refl by discriminate. simpl; split; discriminate.
Qed.



(** [0 < p] rules out a zero and a value at or below zero. *)
Lemma positive_float p :
  (0 <? p)%float = true ->
  (p =? 0)%float = false /\ (p <=? 0)%float = false.
Proof.
  rewrite ltb_spec, eqb_spec, leb_spec.
  unfold SFltb, SFeqb, SFleb.
  rewrite (SFcompare_swap (Prim2SF 0) (Prim2SF p)).
  destruct (SFcompare (Prim2SF 0) (Prim2SF p)) as [[ | | ]|]; simpl;
    intros H; try discriminate; split; reflexivity.
Qed.







(** *** Signs through the arithmetic of the estimate *)

Lemma SFltb_false_nonneg x m e :
  SFltb x (S754_finite false m e) = false -> nonneg_sf x.
Proof.
  unfold SFltb.
  destruct x as [s|s| |s mx ex]; cbn [nonneg_sf]; trivial;
    destruct s; trivial; cbn [SFcompare]; discriminate.
Qed.

Lemma not_below_5000_nonneg x :
  (x <? 5000)%float = false -> nonneg_sf (Prim2SF x).
Proof.
  rewrite ltb_spec.
  change (Prim2SF 5000) with (S754_finite false 5497558138880000 (-40)).
  apply SFltb_false_nonneg.
Qed.

Lemma SFleb_zero_false_pos x :
  SFleb x (S754_zero false) = false -> pos_sf x.
Proof.
  unfold SFleb.
  destruct x as [s|s| |s mx ex]; cbn [pos_sf SFcompare]; trivial;
    try destruct s; trivial; discriminate.
Qed.

Lemma not_at_most_0_pos p :
  (p <=? 0)%float = false -> pos_sf (Prim2SF p).
Proof.
  rewrite leb_spec, Prim2SF_zero. apply SFleb_zero_false_pos.
Qed.

Lemma sign_false_nonneg x : sign_is false x -> nonneg_sf x.
Proof. destruct x; simpl; trivial. Qed.

Lemma SFdiv_nonneg x y :
  nonneg_sf x -> pos_sf y -> nonneg_sf (SF64div x y).
Proof.
  unfold SF64div, SFdiv.
  destruct x as [sx|sx| |sx mx ex], y as [sy|sy| |sy my ey]; simpl;
    intros Hx Hy; subst; trivial; try contradiction.
  destruct (SFdiv_core_binary prec emax (Z.pos mx) ex (Z.pos my) ey)
    as [[mz ez] lz].
  apply sign_false_nonneg, binary_round_aux_sign.
Qed.

Lemma SFmul_nonneg x y :
  nonneg_sf x -> pos_sf y -> nonneg_sf (SF64mul x y).
Proof.
  unfold SF64mul, SFmul.
  destruct x as [sx|sx| |sx mx ex], y as [sy|sy| |sy my ey]; simpl;
    intros Hx Hy; subst; trivial; try contradiction.
  apply sign_false_nonneg, binary_round_aux_sign.
Qed.

Lemma div_nonneg x y :
  nonneg_sf (Prim2SF x) -> pos_sf (Prim2SF y) -> nonneg_sf (Prim2SF (x / y)).
Proof. rewrite div_spec. apply SFdiv_nonneg. Qed.

Lemma mul_nonneg x y :
  nonneg_sf (Prim2SF x) -> pos_sf (Prim2SF y) -> nonneg_sf (Prim2SF (x * y)).
Proof. rewrite mul_spec. apply SFmul_nonneg. Qed.

Lemma binary_round_sign s m e : sign_is s (binary_round prec emax s m e).
Proof.
  unfold binary_round.
  destruct (shl_align m e _) as [mz ez].
  apply binary_round_aux_sign.
Qed.

(** A float rebuilt from a specification with the sign [+] carries it. *)
Lemma SF2Prim_nonneg y :
  sign_is false y -> nonneg_sf (Prim2SF (SF2Prim y)).
Proof.
  destruct y as [s|s| |s m e]; cbn [sign_is]; intros H; subst.
  - exact I.
  - reflexivity.
  - exact I.
  - unfold SF2Prim. rewrite Z_ldexp_spec, of_uint63_spec.
    unfold binary_normalize.
    destruct (Uint63Axioms.to_Z (Uint63Axioms.of_Z (Z.pos m))) as [|q|q] eqn:E.
    + simpl. trivial.
    + pose proof (binary_round_sign false q 0) as Hs.
      destruct (binary_round prec emax false q 0) as [s'|s'| |s' m' e'];
        simpl in *; trivial.
      apply sign_false_nonneg. subst. apply binary_round_sign.
    + pose proof (Uint63.to_Z_bounded (Uint63Axioms.of_Z (Z.pos m))) as B.
      rewrite E in B. lia.
Qed.

Lemma float_of_ratio_nonneg n d :
  nonneg_sf (Prim2SF (Py.float_of_ratio false n d)).
Proof.
  unfold Py.float_of_ratio.
  destruct n as [|p|p]; [exact I | | exact I].
  apply SF2Prim_nonneg.
  unfold SFdiv.
  destruct (SFdiv_core_binary prec emax (Z.pos p) 0 (Z.pos d) 0)
    as [[mz ez] lz].
  apply binary_round_aux_sign.
Qed.

Lemma round2_nonneg x :
  nonneg_sf (Prim2SF x) -> nonneg_sf (Prim2SF (Py.round2 x)).
Proof.
  unfold Py.round2.
  destruct (Prim2SF x) as [s|s| |s m e] eqn:E; simpl; intros H;
    try (rewrite E; simpl; trivial).
  subst. apply float_of_ratio_nonneg.
Qed.



End FloatFacts.

(* ================================================================= *)
(** ** Ingestion: retries, the classification filter, deduplication *)

Section IngestFacts.
Import Py ContractsFinder.

Lemma mem_In x l : CleanData.mem x l = true <-> In x l.
Proof.
  unfold CleanData.mem. rewrite existsb_exists. split.
  - intros [y [Hy He]]. apply String.eqb_eq in He. now subst.
  - intros H. exists x. split; [assumption | apply String.eqb_refl].
Qed.

Lemma mem_false_not_In x l : CleanData.mem x l = false -> ~ In x l.
Proof.
  intros H Hin. apply mem_In in Hin. congruence.
Qed.

(** *** [safe_get] *)

Lemma safe_get_from_all_fail requests_get req backoff :
  forall remaining attempt w,
    (forall k, k < remaining ->
               requests_get (calls w + k) req = RequestException) ->
    safe_get_from requests_get req backoff attempt remaining w =
      (RuntimeError,
       {| calls := calls w + remaining;
          trace := trace w ++
                   flat_map (backoff_events req backoff) (seq attempt remaining);
          cursor_file := cursor_file w |}).
Proof.
  induction remaining as [|k IH]; intros attempt w Hfail.
  - simpl. rewrite Nat.add_0_r, app_nil_r. now destruct w.
  - cbn [safe_get_from]. cbn [log calls].
    pose proof (Hfail 0 (Nat.lt_0_succ k)) as H0.
    rewrite Nat.add_0_r in H0. rewrite H0.
    rewrite IH.
    + cbn [log count_call calls trace cursor_file seq flat_map backoff_events].
      f_equal. f_equal.
      * lia.
      * rewrite <- !app_assoc. reflexivity.
    + intros j Hj. cbn [log count_call calls].
      replace (S (calls w) + j) with (calls w + S j) by lia.
      apply Hfail. lia.
Qed.


(** C8.  When each of the [retries] attempts of [safe_get] ends in a
    network-level exception, [safe_get] makes exactly [retries] requests,
    sleeps [backoff * (attempt + 1)] seconds after each of them, and ends
    by raising [RuntimeError]: it neither returns a response nor tries
    again.  The script calls it with [retries = MAX_RETRIES = 5] and
    [backoff = 2]. *)
Theorem safe_get_exhausts_retries :
  forall (requests_get : nat -> request -> get_outcome) (req : request)
         (retries backoff : nat) (w : world),
    (forall k, k < retries ->
               requests_get (calls w + k) req = RequestException) ->
    safe_get requests_get req retries backoff w =
      (RuntimeError,
       {| calls := calls w + retries;
          trace := trace w ++
                   flat_map (backoff_events req backoff) (seq 0 retries);
          cursor_file := cursor_file w |}).
Proof.
  intros requests_get req retries backoff w Hfail.
  unfold safe_get.
  now apply safe_get_from_all_fail.
Qed.

Lemma safe_get_exhausts_retries_witness :
  safe_get network_down first_request MAX_RETRIES 2 fresh_world =
    (RuntimeError,
     {| calls := 5;
        trace := [Requested first_request; Slept (PyInt 2);
                  Requested first_request; Slept (PyInt 4);
                  Requested first_request; Slept (PyInt 6);
                  Requested first_request; Slept (PyInt 8);
                  Requested first_request; Slept (PyInt 10)];
        cursor_file := None |}).
Proof.
  exact (safe_get_exhausts_retries network_down first_request MAX_RETRIES 2
           fresh_world (fun k _ => eq_refl)).
Defined.

(** *** [normalize_cpv] and the prefix filter *)

Lemma sfilter_idem p s : sfilter p (sfilter p s) = sfilter p s.
Proof.
  induction s as [|c r IH]; simpl; [reflexivity|].
  destruct (p c) eqn:E; simpl; [rewrite E, IH|]; auto.
Qed.

Lemma is_empty_true s : is_empty s = true -> s = "".
Proof. destruct s; simpl; congruence. Qed.

Lemma digits_not_UNKNOWN s : sfilter isdigit s <> "UNKNOWN".
Proof.
  intros H.
  assert (E : sfilter isdigit (sfilter isdigit s) = sfilter isdigit s)
    by apply sfilter_idem.
  rewrite H in E. vm_compute in E. discriminate.
Qed.

Lemma normalize_cpv_spec raw :
  match raw with
  | None => normalize_cpv raw = "UNKNOWN"
  | Some s =>
      if is_empty (sfilter isdigit s) then normalize_cpv raw = "UNKNOWN"
      else normalize_cpv raw = sfilter isdigit s
  end.
Proof.
  destruct raw as [s|]; simpl; [|reflexivity].
  destruct (is_empty s) eqn:E.
  - apply is_empty_true in E. subst. reflexivity.
  - destruct (is_empty (sfilter isdigit s)); reflexivity.
Qed.

Lemma normalize_cpv_digits raw :
  normalize_cpv raw = "UNKNOWN" \/
  sfilter isdigit (normalize_cpv raw) = normalize_cpv raw.
Proof.
  pose proof (normalize_cpv_spec raw) as H.
  destruct raw as [s|]; [|now left].
  destruct (is_empty (sfilter isdigit s)); [now left|].
  right. rewrite H. apply sfilter_idem.
Qed.

Lemma extract_cpv_digits tender release :
  extract_cpv tender release = "UNKNOWN" \/
  sfilter isdigit (extract_cpv tender release) = extract_cpv tender release.
Proof.
  unfold extract_cpv, release_cpv.
  destruct tender as [t|]; [destruct (t_classification t)|];
    try destruct (first_item_id _);
    destruct (r_classification release);
    auto using normalize_cpv_digits.
Qed.

Lemma accepted_prefix_spec cpv :
  accepted_prefix cpv = true ->
  startswith cpv "45" = true \/ startswith cpv "71" = true.
Proof.
  unfold accepted_prefix, CIVIL_WORKS_CPVS. simpl.
  rewrite !orb_true_iff. intuition discriminate.
Qed.

(** What one iteration of the loop over the releases can do: leave the
    accumulator as it is (with or without an exception), or append one row
    under a new id and an accepted code. *)
Lemma process_release_cases acc release :
  (left_behind (process_release acc release) = acc) \/
  exists row,
    process_release acc release =
      Ok {| all_contracts := all_contracts acc ++ [row];
            seen_ocids := ocid row :: seen_ocids acc |} /\
    r_ocid release = Some (ocid row) /\
    ocid row <> "" /\
    ~ In (ocid row) (seen_ocids acc) /\
    cpv_code row =
      extract_cpv (get_default (r_tender release) empty_tender) release /\
    cpv_code row <> "UNKNOWN" /\
    accepted_prefix (cpv_code row) = true.
Proof.
  unfold process_release.
  destruct (r_ocid release) as [o|]; [|now left].
  destruct (is_empty o) eqn:Ee; [now left|].
  destruct (CleanData.mem o (seen_ocids acc)) eqn:Em; [now left|].
  cbn [orb].
  set (tender := get_default (r_tender release) empty_tender).
  destruct (String.eqb (extract_cpv tender release) "UNKNOWN") eqn:Eu;
    [now left|].
  destruct (accepted_prefix (extract_cpv tender release)) eqn:Ea;
    [|now left].
  cbn [negb].
  destruct (extract_value tender release) as [amount_ currency_].
  destruct tender as [t|] eqn:Et; [|now left].
  right. eexists (Build_contract o _ _ _ _ _ _ _ _ _ _).
  split; [reflexivity|]. cbn.
  repeat split; auto.
  - intros ->. discriminate.
  - now apply mem_false_not_In.
  - now apply String.eqb_neq.
Qed.

Section Preservation.
Variable P : accumulator -> Prop.
Hypothesis P_step :
  forall a release, P a -> P (left_behind (process_release a release)).

Lemma process_page_preserves rs :
  forall a, P a -> P (left_behind (process_page a rs)).
Proof.
  induction rs as [|r rs IH]; intros a Ha; [exact Ha|].
  cbn [process_page].
  pose proof (P_step a r Ha) as Hs.
  destruct (process_release a r) as [a'|a']; cbn in Hs.
  - now apply IH.
  - exact Hs.
Qed.

Lemma fetch_loop_preserves requests_get fuel :
  forall st, P (acc st) -> P (acc (fst (fetch_loop requests_get fuel st))).
Proof.
  induction fuel as [|fuel IH]; intros st Hst; [exact Hst|].
  cbn [fetch_loop].
  destruct (safe_get requests_get _ MAX_RETRIES 2 (the_world st)) as [got w].
  destruct got as [resp|]; [|exact Hst].
  destruct (negb (status_code resp =? 200)); [exact Hst|].
  destruct (body resp) as [data|]; [|exact Hst].
  cbn [acc].
  destruct (releases data) as [|r rs] eqn:Er; [exact Hst|].
  pose proof (process_page_preserves (r :: rs) (acc st) Hst) as Hp.
  destruct (process_page (acc st) (r :: rs)) as [a'|a']; cbn in Hp;
    [|exact Hp].
  destruct (next_link data) as [next|]; [|exact Hp].
  destruct (truthy next); [|exact Hp].
  apply IH. exact Hp.
Qed.
End Preservation.

Lemma dedup_invariant_step a release :
  dedup_invariant a -> dedup_invariant (left_behind (process_release a release)).
Proof.
  intros [Hnd Hseen].
  destruct (process_release_cases a release) as [E | [row [E [_ [_ [Hnew _]]]]]].
  - rewrite E. now split.
  - rewrite E. unfold dedup_invariant.
    cbn [left_behind all_contracts seen_ocids]. split.
    + rewrite map_app. cbn [map].
      apply NoDup_app_remove_l with (l := []).
      apply Permutation_NoDup with (l := ocid row :: map ocid (all_contracts a)).
      * apply Permutation_cons_append.
      * constructor; [|assumption]. intros Hin. apply Hnew. now apply Hseen.
    + intros o Hin. rewrite map_app in Hin. cbn [map] in Hin.
      apply in_app_or in Hin. destruct Hin as [Hin | [Hin | []]].
      * right. now apply Hseen.
      * now left.
Qed.

Lemma civil_codes_step a release :
  Forall (fun row => civil_code (cpv_code row)) (all_contracts a) ->
  Forall (fun row => civil_code (cpv_code row))
         (all_contracts (left_behind (process_release a release))).
Proof.
  intros H.
  destruct (process_release_cases a release)
    as [E | [row [E [_ [_ [_ [Hcpv [Hunk Hacc]]]]]]]].
  - now rewrite E.
  - rewrite E. cbn [left_behind all_contracts]. apply Forall_app.
    split; [assumption|].
    constructor; [|constructor]. split.
    + rewrite Hcpv in *.
      destruct (extract_cpv_digits
                  (get_default (r_tender release) empty_tender) release);
        [contradiction | assumption].
    + now apply accepted_prefix_spec.
Qed.


Lemma drop_duplicates_NoDup rows :
  forall seen,
    NoDup (map ocid rows) ->
    (forall o, In o (map ocid rows) -> ~ In o seen) ->
    drop_duplicates_from seen rows = rows.
Proof.
  induction rows as [|r rows IH]; intros seen Hnd Hseen; [reflexivity|].
  cbn [drop_duplicates_from]. cbn [map] in Hnd, Hseen.
  inversion Hnd as [|x l Hnotin Hnd']; subst.
  destruct (CleanData.mem (ocid r) seen) eqn:Em.
  - apply mem_In in Em. exfalso. apply (Hseen (ocid r)); [now left | exact Em].
  - f_equal. apply IH; [assumption|].
    intros o Hin [Heq | Hin'].
    + subst. contradiction.
    + apply (Hseen o); [now right | assumption].
Qed.

Lemma initial_dedup_invariant w : dedup_invariant (acc (initial_state w)).
Proof. split; [constructor | intros o []]. Qed.

(** C3.  Whatever pages the remote listing returns, and however far the
    run has got, no contract identifier occurs twice among the accumulated
    records; a release without [ocid], or with the [ocid] of a record
    accumulated on this or an earlier page, leaves the accumulator as it
    is and raises nothing; and the table written is the accumulated list
    itself. *)
Theorem ingest_never_repeats_an_ocid :
  forall (requests_get : nat -> request -> get_outcome) (fuel : nat)
         (w : world) (st : run_state) (how : exit)
         (written : option (list contract)),
    fetch_2025_construction_contracts requests_get fuel w = (st, how, written) ->
    NoDup (map ocid (all_contracts (acc st))) /\
    (forall release,
        r_ocid release = None \/
        (exists row, In row (all_contracts (acc st)) /\
                     r_ocid release = Some (ocid row)) ->
        process_release (acc st) release = Ok (acc st)) /\
    (written = None /\ all_contracts (acc st) = [] \/
     written = Some (all_contracts (acc st))).
Proof.
  intros requests_get fuel w st how written Hrun.
  unfold fetch_2025_construction_contracts in Hrun.
  pose proof (fetch_loop_preserves dedup_invariant dedup_invariant_step
                requests_get fuel (initial_state w)
                (initial_dedup_invariant w)) as Hinv.
  destruct (fetch_loop requests_get fuel (initial_state w)) as [st' how'].
  cbn [fst] in Hinv. inversion Hrun; subst st' how'. clear Hrun.
  destruct Hinv as [Hnd Hseen].
  split; [exact Hnd|]. split.
  - intros release [Hnone | [row [Hin Hsome]]]; unfold process_release.
    + now rewrite Hnone.
    + rewrite Hsome.
      assert (Hm : CleanData.mem (ocid row) (seen_ocids (acc st)) = true).
      { apply mem_In, Hseen, in_map, Hin. }
      rewrite Hm, orb_true_r. reflexivity.
  - destruct (all_contracts (acc st)) as [|r rows] eqn:E; subst written;
      [now left|].
    right. f_equal.
    change (drop_duplicates_from [] (r :: rows) = r :: rows).
    apply drop_duplicates_NoDup; [exact Hnd|].
    intros o _ [].
Qed.

Lemma ingest_never_repeats_an_ocid_witness :
  map ocid
      (all_contracts
         (acc (fst (fst (fetch_2025_construction_contracts
                           two_page_listing 5 fresh_world)))))
    = ["ocds-1"; "ocds-3"] /\
  NoDup (map ocid
      (all_contracts
         (acc (fst (fst (fetch_2025_construction_contracts
                           two_page_listing 5 fresh_world)))))).
Proof.
  split.
  - vm_compute. reflexivity.
  - exact (proj1 (ingest_never_repeats_an_ocid two_page_listing 5 fresh_world
                    _ _ _ eq_refl)).
Defined.

(** C9.  The classification code extracted from a release is the digits of
    the chosen ["id"], or ["UNKNOWN"] when there is no id or no digit in
    it.  A release is appended only under a code that is not ["UNKNOWN"]
    and starts with ["45"] or ["71"], the row stores that code, and so
    every row the run accumulates carries such a code.  ["45210000-2"]
    becomes ["452100002"] and is accepted; ["98000000"] is rejected, and a
    release under it is never stored. *)
Theorem cpv_normalised_and_filtered :
  (forall raw,
      normalize_cpv raw =
        match raw with
        | None => "UNKNOWN"
        | Some s => if is_empty (sfilter isdigit s) then "UNKNOWN"
                    else sfilter isdigit s
        end) /\
  (forall tender release,
      extract_cpv tender release = "UNKNOWN" \/
      sfilter isdigit (extract_cpv tender release) = extract_cpv tender release) /\
  (forall a release,
      left_behind (process_release a release) = a \/
      exists row,
        process_release a release =
          Ok {| all_contracts := all_contracts a ++ [row];
                seen_ocids := ocid row :: seen_ocids a |} /\
        cpv_code row =
          extract_cpv (get_default (r_tender release) empty_tender) release /\
        cpv_code row <> "UNKNOWN" /\
        civil_code (cpv_code row)) /\
  (forall requests_get fuel w row,
      In row (all_contracts
                (acc (fst (fetch_loop requests_get fuel (initial_state w))))) ->
      civil_code (cpv_code row)) /\
  (normalize_cpv (Some "45210000-2") = "452100002" /\
   accepted_prefix "452100002" = true /\
   forall a o,
     is_empty o = false -> ~ In o (seen_ocids a) ->
     exists row,
       process_release a (release_with_code (Some o) "45210000-2") =
         Ok {| all_contracts := all_contracts a ++ [row];
               seen_ocids := o :: seen_ocids a |} /\
       ocid row = o /\ cpv_code row = "452100002") /\
  (normalize_cpv (Some "98000000") = "98000000" /\
   accepted_prefix "98000000" = false /\
   (forall a release,
       extract_cpv (get_default (r_tender release) empty_tender) release
         = "98000000" ->
       process_release a release = Ok a) /\
   forall requests_get fuel w row,
     In row (all_contracts
               (acc (fst (fetch_loop requests_get fuel (initial_state w))))) ->
     cpv_code row <> "98000000").
Proof.
  assert (Hrun : forall requests_get fuel w row,
             In row (all_contracts
                       (acc (fst (fetch_loop requests_get fuel
                                             (initial_state w))))) ->
             civil_code (cpv_code row)).
  { intros requests_get fuel w row Hin.
    pose proof (fetch_loop_preserves
                  (fun a => Forall (fun row => civil_code (cpv_code row))
                                   (all_contracts a))
                  civil_codes_step requests_get fuel (initial_state w)
                  (Forall_nil _)) as H.
    rewrite Forall_forall in H. now apply H. }
  repeat apply conj.
  - intros raw. pose proof (normalize_cpv_spec raw) as H.
    destruct raw as [s|]; [|exact H].
    destruct (is_empty (sfilter isdigit s)); exact H.
  - apply extract_cpv_digits.
  - intros a release.
    destruct (process_release_cases a release)
      as [E | [row [E [_ [_ [_ [Hcpv [Hunk Hacc]]]]]]]]; [now left|].
    right. exists row. repeat split; try assumption.
    + rewrite Hcpv in *.
      destruct (extract_cpv_digits
                  (get_default (r_tender release) empty_tender) release);
        [contradiction | assumption].
    + now apply accepted_prefix_spec.
  - exact Hrun.
  - reflexivity.
  - reflexivity.
  - intros a o Hne Hnew. unfold process_release.
    cbn [release_with_code r_ocid]. rewrite Hne.
    destruct (CleanData.mem o (seen_ocids a)) eqn:Em;
      [apply mem_In in Em; contradiction|].
    eexists (Build_contract o _ _ _ _ _ _ _ _ _ _).
    split; [reflexivity | split; reflexivity].
  - reflexivity.
  - reflexivity.
  - intros a release Hcode. unfold process_release.
    destruct (r_ocid release) as [o|]; [|reflexivity].
    destruct (is_empty o || CleanData.mem o (seen_ocids a)); [reflexivity|].
    rewrite Hcode. reflexivity.
  - intros requests_get fuel w row Hin Heq.
    destruct (Hrun requests_get fuel w row Hin) as [_ Hpre].
    rewrite Heq in Hpre. destruct Hpre; discriminate.
Qed.

End IngestFacts.

(* ================================================================= *)
(** ** The risk engine *)

Section PqeFacts.
Import Py PqeEngine.

Lemma float_of_decimal_empty : float_of_decimal "" = None.
Proof. reflexivity. Qed.

Lemma clean_currency_eq val :
  clean_currency val =
    match float_of_decimal
            (sfilter (fun c => isdigit c || is_dot c) (cell_str val)) with
    | Some f => f
    | None => 0%float
    end.
Proof.
  unfold clean_currency.
  destruct (sfilter _ (cell_str val)) as [|c r]; reflexivity.
Qed.

(** C6.  [clean_currency] keeps the digits and dots of the amount and
    reads them as a decimal; a missing amount and a text that is no
    decimal give [0.0], and no input raises.  A contract whose spend is
    below [MIN_SPEND_GBP = 5000] comes out unchanged with the status
    [SKIPPED_LOW_VALUE].  The amount text "£4,999.50" reads as [4999.5]
    and so is skipped as low value. *)
Theorem spend_gate :
  forall (materials : list material) (row : contract),
    (clean_currency (value_amount row) <? MIN_SPEND_GBP)%float = true ->
    (screen_contract materials row = {| source_row := row; added := LowValue |} /\
     status_of (screen_contract materials row) = SKIPPED_LOW_VALUE) /\
    (forall val,
        clean_currency val =
          match float_of_decimal
                  (sfilter (fun c => isdigit c || is_dot c) (cell_str val)) with
          | Some f => f
          | None => 0%float
          end) /\
    (clean_currency None = 0%float /\
     forall val,
       float_of_decimal
         (sfilter (fun c => isdigit c || is_dot c) (cell_str val)) = None ->
       clean_currency val = 0%float) /\
    MIN_SPEND_GBP = 5000%float /\
    clean_currency (Some "£4,999.50") = 4999.5%float /\
    (value_amount row = Some "£4,999.50" ->
     status_of (screen_contract materials row) = SKIPPED_LOW_VALUE).
Proof.
  intros materials row Hlow.
  assert (Hskip : screen_contract materials row =
                    {| source_row := row; added := LowValue |}).
  { unfold screen_contract. rewrite Hlow. reflexivity. }
  repeat apply conj.
  - exact Hskip.
  - rewrite Hskip. reflexivity.
  - apply clean_currency_eq.
  - reflexivity.
  - intros val Hbad. rewrite clean_currency_eq, Hbad. reflexivity.
  - reflexivity.
  - vm_compute. reflexivity.
  - intros _. rewrite Hskip. reflexivity.
Qed.

Lemma spend_gate_witness :
  clean_currency (Some "£4,999.50") = 4999.5%float /\
  status_of (screen_contract [steel] (contract_for "ocds-1" "£4,999.50"))
    = SKIPPED_LOW_VALUE.
Proof.
  split.
  - vm_compute. reflexivity.
  - exact (proj2 (proj1 (spend_gate [steel] (contract_for "ocds-1" "£4,999.50")
                                    eq_refl))).
Defined.

Lemma risk_tier_spec est_co2e :
  ((1000 <=? est_co2e)%float = true -> risk_tier est_co2e = CRITICAL) /\
  ((1000 <=? est_co2e)%float = false -> (250 <=? est_co2e)%float = true ->
   risk_tier est_co2e = HIGH) /\
  ((250 <=? est_co2e)%float = false -> (50 <=? est_co2e)%float = true ->
   (1000 <=? est_co2e)%float = false ->
   risk_tier est_co2e = MEDIUM) /\
  ((50 <=? est_co2e)%float = false -> (250 <=? est_co2e)%float = false ->
   (1000 <=? est_co2e)%float = false ->
   risk_tier est_co2e = LOW).
Proof.
  unfold risk_tier.
  repeat split; intros; repeat match goal with H : _ = _ |- _ => rewrite H end;
    reflexivity.
Qed.

Lemma float_or_zero_positive p :
  (0 <? p)%float = true ->
  float_or_zero p = p /\ (float_or_zero p <=? 0)%float = false.
Proof.
  intros Hp. destruct (positive_float p Hp) as [He Hl].
  unfold float_or_zero. rewrite He. now split.
Qed.

(** C4.  For a contract that passes the spend gate and matches a material
    with strictly positive price and carbon factor, the engine marks the
    row [CALCULATED] with [tonnes = spend / price],
    [co2e = tonnes * factor / 1000], the bounds [co2e * 0.75] and
    [co2e * 1.25] (each stored rounded to two decimals) and the tier of
    the unrounded [co2e]: CRITICAL from 1000, HIGH from 250, MEDIUM from
    50, LOW below.  With spend 100000, price 50 and factor 100 the row
    holds 2000 tonnes, 200 tonnes of CO2e, the tier MEDIUM and the bounds
    150 and 250. *)
Theorem carbon_estimate :
  forall (materials : list material) (row : contract) (mat : material),
    (clean_currency (value_amount row) <? MIN_SPEND_GBP)%float = false ->
    detect_material (full_text row) materials = Some mat ->
    (0 <? composite_price_gbp_per_tonne mat)%float = true ->
    (0 <? carbon_factor_kgco2e_per_tonne mat)%float = true ->
    let spend := clean_currency (value_amount row) in
    let price := composite_price_gbp_per_tonne mat in
    let factor := carbon_factor_kgco2e_per_tonne mat in
    let tonnes := (spend / price)%float in
    let co2e := (tonnes * factor / 1000)%float in
    screen_contract materials row =
      {| source_row := row;
         added := Calculated
           {| detected_material_id := material_id mat;
              detected_material_name := material_name mat;
              applied_price_rate := price;
              applied_carbon_factor := factor;
              est_material_tonnes := round2 tonnes;
              est_co2e_tonnes := round2 co2e;
              co2e_range_low := round2 (co2e * 0.75);
              co2e_range_high := round2 (co2e * 1.25);
              risk_category_of := risk_tier co2e;
              data_source_ref := ice_source_ref mat |} |} /\
    (((1000 <=? co2e)%float = true -> risk_tier co2e = CRITICAL) /\
     ((1000 <=? co2e)%float = false -> (250 <=? co2e)%float = true ->
      risk_tier co2e = HIGH) /\
     ((250 <=? co2e)%float = false -> (50 <=? co2e)%float = true ->
      (1000 <=? co2e)%float = false -> risk_tier co2e = MEDIUM) /\
     ((50 <=? co2e)%float = false -> (250 <=? co2e)%float = false ->
      (1000 <=? co2e)%float = false -> risk_tier co2e = LOW)) /\
    (spend = 100000%float -> price = 50%float -> factor = 100%float ->
     tonnes = 2000%float /\ co2e = 200%float /\
     round2 tonnes = 2000%float /\ round2 co2e = 200%float /\
     risk_tier co2e = MEDIUM /\
     round2 (co2e * 0.75) = 150%float /\ round2 (co2e * 1.25) = 250%float).
Proof.
  intros materials row mat Hgate Hmat Hprice Hfactor
         spend price factor tonnes co2e.
  destruct (float_or_zero_positive _ Hprice) as [Ep Lp].
  destruct (float_or_zero_positive _ Hfactor) as [Ef Lf].
  split; [|split].
  - unfold screen_contract.
    rewrite Hgate, Hmat, Lp, Lf. cbn [orb].
    rewrite Ep, Ef. reflexivity.
  - apply risk_tier_spec.
  - intros Hs Hp Hf. subst tonnes co2e. rewrite Hs, Hp, Hf.
    vm_compute. repeat split; reflexivity.
Qed.

Lemma carbon_estimate_witness :
  added (screen_contract [steel] (contract_for "ocds-7" "100000")) =
    Calculated
      {| detected_material_id := Some "MAT_STEEL";
         detected_material_name := Some "Structural steel";
         applied_price_rate := 50%float;
         applied_carbon_factor := 100%float;
         est_material_tonnes := 2000%float;
         est_co2e_tonnes := 200%float;
         co2e_range_low := 150%float;
         co2e_range_high := 250%float;
         risk_category_of := MEDIUM;
         data_source_ref := Some "ICE v3" |}.
Proof.
  pose proof (carbon_estimate [steel] (contract_for "ocds-7" "100000") steel
                eq_refl eq_refl eq_refl eq_refl) as H.
  cbv zeta in H. destruct H as [H _].
  rewrite H. vm_compute. reflexivity.
Defined.

(** *** [detect_material] *)

(** The loop returns the first row that is not skipped as generic and has
    a keyword in the text. *)
Lemma scan_rows_find text rows :
  scan_rows text rows =
    find (fun row => negb (skipped_as_generic row) &&
                     any_keyword_in text (keyword_list row)) rows.
Proof.
  induction rows as [|row rest IH]; [reflexivity|].
  cbn [scan_rows find].
  destruct (skipped_as_generic row); cbn [negb andb]; [exact IH|].
  destruct (any_keyword_in text (keyword_list row)); [reflexivity | exact IH].
Qed.

(** On a table that spells the generic id exactly, [detect_material] is
    the first non-generic row with a keyword in the lower-cased text,
    else the first generic row, else nothing. *)
Lemma detect_material_spec text ref_df :
  generic_spelled_exactly ref_df ->
  detect_material text ref_df =
    match find (fun row => negb (is_mat_gen row) &&
                           any_keyword_in (lower text) (keyword_list row))
               ref_df with
    | Some row => Some row
    | None => find is_mat_gen ref_df
    end.
Proof.
  intros Hsp. unfold detect_material. rewrite scan_rows_find.
  assert (E : forall rows, (forall row, In row rows -> In row ref_df) ->
     find (fun row => negb (skipped_as_generic row) &&
                      any_keyword_in (lower text) (keyword_list row)) rows =
     find (fun row => negb (is_mat_gen row) &&
                      any_keyword_in (lower text) (keyword_list row)) rows).
  { induction rows as [|row rest IH]; intros Hin; [reflexivity|].
    cbn [find]. rewrite (Hsp row (Hin row (or_introl eq_refl))).
    rewrite IH; [reflexivity|]. intros r Hr. apply Hin. now right. }
  rewrite E by auto.
  destruct (find _ ref_df); [reflexivity|].
  clear E Hsp. induction ref_df as [|row rest IH]; [reflexivity|].
  cbn [filter find]. destruct (is_mat_gen row); [reflexivity | exact IH].
Qed.

(** C5, at the failing input.  The only row of the table has the id
    ["mat_gen"] and the keyword ["steel"], and the text is ["steel"]:
    the loop skips the row as the generic one, the fallback does not
    find it under ["MAT_GEN"], and nothing is returned. *)
Theorem detect_material_misses_lower_case_generic :
  skipped_as_generic lower_case_generic = true /\
  is_mat_gen lower_case_generic = false /\
  any_keyword_in (lower "steel") (keyword_list lower_case_generic) = true /\
  detect_material "steel" [lower_case_generic] = None.
Proof.
  repeat split; vm_compute; reflexivity.
Qed.


(** *** The order of the output *)














End PqeFacts.

(* ================================================================= *)
(** ** Buyer-name canonicalisation and amount cleaning *)

Section CleanFacts.
Import Py CleanData.

(** *** [unique] *)

Lemma unique_from_spec l :
  forall seen,
    NoDup (unique_from seen l) /\
    forall x, In x (unique_from seen l) <-> In x l /\ ~ In x seen.
Proof.
  induction l as [|a l IH]; intros seen; cbn [unique_from].
  - split; [constructor|]. intros x. cbn. tauto.
  - destruct (mem a seen) eqn:Em.
    + apply mem_In in Em. destruct (IH seen) as [Hnd Hin].
      split; [exact Hnd|]. intros x. rewrite Hin. cbn.
      split; [tauto|]. intros [[->|Hx] Hs]; [contradiction | tauto].
    + apply mem_false_not_In in Em. destruct (IH (a :: seen)) as [Hnd Hin].
      split.
      * constructor; [|exact Hnd]. rewrite Hin. cbn. tauto.
      * intros x. cbn. rewrite Hin. cbn.
        destruct (string_dec a x) as [->|Hne]; tauto.
Qed.

Lemma unique_NoDup l : NoDup (unique l).
Proof. apply unique_from_spec. Qed.

Lemma unique_In l x : In x (unique l) <-> In x l.
Proof.
  unfold unique. destruct (unique_from_spec l []) as [_ H].
  rewrite H. cbn. tauto.
Qed.

(** A name met for the first time at some place of [unique_from seen l]
    stands in [l] after the names met before it. *)
Lemma unique_from_split l :
  forall seen k1 v k2,
    unique_from seen l = k1 ++ v :: k2 ->
    exists l1 l2,
      l = l1 ++ v :: l2 /\ ~ In v l1 /\
      forall y, In y l1 -> In y k1 \/ In y seen.
Proof.
  induction l as [|a l IH]; intros seen k1 v k2 E; cbn [unique_from] in E.
  - destruct k1; discriminate.
  - assert (Hv : In v (unique_from seen (a :: l))).
    { cbn [unique_from]. rewrite E. apply in_or_app. right. now left. }
    apply unique_from_spec in Hv. destruct Hv as [_ Hvs].
    destruct (mem a seen) eqn:Em.
    + apply mem_In in Em.
      destruct (IH _ _ _ _ E) as [l1 [l2 [-> [Hn Hy]]]].
      exists (a :: l1), l2. split; [reflexivity|]. split.
      * intros [->|H]; [contradiction | contradiction].
      * intros y [<-|H]; [now right | now apply Hy].
    + destruct k1 as [|b k1]; cbn [app] in E; inversion E; subst.
      * exists [], l. split; [reflexivity|]. split; [intros []|intros y []].
      * destruct (IH _ _ _ _ H1) as [l1 [l2 [-> [Hn Hy]]]].
        exists (b :: l1), l2. split; [reflexivity|]. split.
        -- assert (Hv : In v (unique_from (b :: seen) (l1 ++ v :: l2))).
           { rewrite H1. apply in_or_app. right. now left. }
           apply unique_from_spec in Hv. destruct Hv as [_ Hvb].
           intros [->|H]; [apply Hvb; now left | contradiction].
        -- intros y [<-|H]; [left; now left|].
           destruct (Hy y H) as [H'|[<-|H']];
             [left; now right | left; now left | now right].
Qed.

(** *** [Counter] *)

Lemma counter_add_keys x c :
  counter_keys (counter_add x c) =
    if mem x (counter_keys c) then counter_keys c else counter_keys c ++ [x].
Proof.
  unfold counter_keys, mem.
  induction c as [|[y n] r IH]; [reflexivity|].
  cbn [counter_add map fst existsb].
  rewrite (String.eqb_sym x y).
  destruct (String.eqb y x) eqn:E; cbn [orb map fst app]; [reflexivity|].
  rewrite IH. destruct (existsb (String.eqb x) (map fst r)); reflexivity.
Qed.

Lemma counter_add_count x c y :
  count_in (counter_add x c) y =
    count_in c y + (if string_dec x y then 1 else 0).
Proof.
  unfold count_in.
  induction c as [|[z n] r IH]; cbn [counter_add find fst snd].
  - destruct (string_dec x y) as [->|Hne].
    + rewrite String.eqb_refl. reflexivity.
    + apply String.eqb_neq in Hne. rewrite Hne. reflexivity.
  - destruct (String.eqb z x) eqn:Ezx; cbn [find fst snd].
    + apply String.eqb_eq in Ezx. subst z.
      destruct (string_dec x y) as [->|Hne].
      * rewrite String.eqb_refl. cbn [snd]. lia.
      * apply String.eqb_neq in Hne. rewrite Hne. lia.
    + destruct (String.eqb z y) eqn:Ezy; [|exact IH].
      apply String.eqb_eq in Ezy. subst z. apply String.eqb_neq in Ezx.
      destruct (string_dec x y); [congruence | cbn [snd]; lia].
Qed.

Lemma Counter_fold l :
  forall c seen,
    (forall x, In x seen <-> In x (counter_keys c)) ->
    counter_keys (fold_left (fun c x => counter_add x c) l c)
      = counter_keys c ++ unique_from seen l /\
    forall y, count_in (fold_left (fun c x => counter_add x c) l c) y
              = count_in c y + count_occ string_dec l y.
Proof.
  induction l as [|a l IH]; intros c seen Hs; cbn [fold_left unique_from].
  - rewrite app_nil_r. split; [reflexivity|]. intros y. cbn. lia.
  - pose proof (counter_add_keys a c) as Hk.
    assert (Em : mem a seen = mem a (counter_keys c)).
    { destruct (mem a seen) eqn:E1, (mem a (counter_keys c)) eqn:E2;
        try reflexivity.
      - apply mem_In, Hs, mem_In in E1. congruence.
      - apply mem_In, Hs, mem_In in E2. congruence. }
    rewrite Em. destruct (mem a (counter_keys c)) eqn:E.
    + destruct (IH (counter_add a c) seen) as [H1 H2].
      { intros x. now rewrite Hk, Hs. }
      split.
      * now rewrite H1, Hk.
      * intros y. rewrite H2, counter_add_count. cbn [count_occ].
        destruct (string_dec a y); lia.
    + destruct (IH (counter_add a c) (a :: seen)) as [H1 H2].
      { intros x. rewrite Hk, in_app_iff. cbn. rewrite Hs. tauto. }
      split.
      * rewrite H1, Hk, <- app_assoc. reflexivity.
      * intros y. rewrite H2, counter_add_count. cbn [count_occ].
        destruct (string_dec a y); lia.
Qed.

Lemma count_in_NoDup c :
  NoDup (counter_keys c) ->
  forall x n, In (x, n) c -> count_in c x = n.
Proof.
  unfold count_in.
  induction c as [|[y m] r IH]; intros Hnd x n Hin; [destruct Hin|].
  cbn [counter_keys map fst] in Hnd. inversion Hnd as [|? ? Hy Hr]; subst.
  cbn [find fst]. destruct Hin as [E|Hin].
  - inversion E; subst. rewrite String.eqb_refl. reflexivity.
  - destruct (String.eqb y x) eqn:Eyx.
    + apply String.eqb_eq in Eyx. subst y. exfalso. apply Hy.
      change x with (fst (x, n)). now apply in_map.
    + now apply IH.
Qed.

(** [Counter l] lists the distinct names of [l] in order of first
    appearance, each with the number of its occurrences. *)
Lemma Counter_spec l :
  Counter l = map (fun x => (x, count_occ string_dec l x)) (unique l).
Proof.
  unfold Counter, unique.
  destruct (Counter_fold l [] []) as [Hk Hc]; [cbn; tauto|].
  cbn [counter_keys map app] in Hk.
  set (c := fold_left (fun c x => counter_add x c) l []) in *.
  assert (Hnd : NoDup (counter_keys c))
    by (rewrite Hk; apply unique_from_spec).
  assert (Hent : forall p, In p c -> snd p = count_occ string_dec l (fst p)).
  { intros [x n] Hin. cbn [fst snd].
    rewrite <- (count_in_NoDup c Hnd x n Hin), Hc. reflexivity. }
  rewrite <- Hk. clear Hk Hc Hnd.
  induction c as [|[x n] r IH]; [reflexivity|].
  cbn [counter_keys map fst]. f_equal.
  - f_equal. apply (Hent (x, n)). now left.
  - apply IH. intros p Hp. apply Hent. now right.
Qed.

(** [max_by_count]: the running best stays, or is replaced by the first
    later item that beats every item before it. *)
Lemma max_by_count_spec l :
  forall best,
    (max_by_count best l = best /\
     Forall (fun i => snd i <= snd best) l) \/
    (exists l1 l2,
        l = l1 ++ max_by_count best l :: l2 /\
        snd best < snd (max_by_count best l) /\
        Forall (fun i => snd i < snd (max_by_count best l)) l1 /\
        Forall (fun i => snd i <= snd (max_by_count best l)) l2).
Proof.
  induction l as [|item l IH]; intros best; cbn [max_by_count].
  - left. split; [reflexivity | constructor].
  - destruct (snd best <? snd item) eqn:E.
    + apply Nat.ltb_lt in E. right.
      destruct (IH item) as [[Hr Hall] | [l1 [l2 [Hl [Hlt [H1 H2]]]]]].
      * exists [], l. rewrite Hr. repeat split; auto.
      * exists (item :: l1), l2. repeat split; auto.
        -- cbn. now f_equal.
        -- lia.
    + apply Nat.ltb_ge in E.
      destruct (IH best) as [[Hr Hall] | [l1 [l2 [Hl [Hlt [H1 H2]]]]]].
      * left. split; [exact Hr | now constructor].
      * right. exists (item :: l1), l2. repeat split; auto.
        -- cbn. now f_equal.
        -- constructor; [lia | exact H1].
Qed.

Lemma most_common1_spec c :
  c <> [] ->
  exists r c1 c2,
    most_common1 c = [r] /\ c = c1 ++ r :: c2 /\
    Forall (fun i => snd i < snd r) c1 /\
    Forall (fun i => snd i <= snd r) c2.
Proof.
  destruct c as [|item rest]; [congruence|]. intros _.
  cbn [most_common1].
  destruct (max_by_count_spec rest item)
    as [[Hr Hall] | [l1 [l2 [Hl [Hlt [H1 H2]]]]]].
  - exists item, [], rest. rewrite Hr. repeat split; auto.
  - exists (max_by_count item rest), (item :: l1), l2. repeat split; auto.
    cbn. now f_equal.
Qed.

(** The most common variant of a list: the first of maximal count. *)
Lemma most_common_variant variants :
  variants <> [] ->
  exists canonical n earlier later,
    most_common1 (Counter variants) = [(canonical, n)] /\
    variants = earlier ++ canonical :: later /\
    ~ In canonical earlier /\
    (forall v, In v earlier ->
               count_occ string_dec variants v
               < count_occ string_dec variants canonical) /\
    (forall v, count_occ string_dec variants v
               <= count_occ string_dec variants canonical).
Proof.
  intros Hne. rewrite Counter_spec.
  set (g := fun x => (x, count_occ string_dec variants x)).
  assert (Hc : map g (unique variants) <> []).
  { destruct variants as [|a r]; [congruence|].
    assert (Ha : In a (unique (a :: r))) by (apply unique_In; now left).
    destruct (unique (a :: r)); [destruct Ha | discriminate]. }
  destruct (most_common1_spec _ Hc) as [r [c1 [c2 [Hm [Hsplit [H1 H2]]]]]].
  apply map_eq_app in Hsplit.
  destruct Hsplit as [k1 [k2' [Hu [Hk1 Hk2]]]].
  apply map_eq_cons in Hk2. destruct Hk2 as [v [k2 [-> [Hv Hk2]]]].
  subst r c1 c2.
  destruct (unique_from_split variants [] k1 v k2 Hu)
    as [l1 [l2 [Hl [Hn Hy]]]].
  rewrite Forall_map, Forall_forall in H1, H2. cbn [g snd] in H1, H2.
  exists v, (count_occ string_dec variants v), l1, l2.
  repeat split; auto.
  - intros y Hin. destruct (Hy y Hin) as [H|[]]. now apply H1.
  - intros y.
    destruct (in_dec string_dec y variants) as [Hin|Hnin].
    + apply unique_In in Hin. rewrite Hu in Hin.
      apply in_app_or in Hin. destruct Hin as [H|[<-|H]].
      * apply Nat.lt_le_incl. now apply H1.
      * apply Nat.le_refl.
      * now apply H2.
    + apply (count_occ_not_In string_dec) in Hnin. rewrite Hnin. lia.
Qed.

(** *** Clusters *)

Lemma cluster_append_In key name clusters k vs :
  In (k, vs) (cluster_append key name clusters) ->
  In (k, vs) clusters \/
  (k = key /\
   (vs = [name] \/ exists vs0, In (k, vs0) clusters /\ vs = vs0 ++ [name])).
Proof.
  induction clusters as [|[k0 vs0] r IH]; cbn [cluster_append].
  - intros [E|[]]. inversion E; subst. right. split; [reflexivity | now left].
  - destruct (String.eqb k0 key) eqn:Ek.
    + apply String.eqb_eq in Ek. subst k0.
      intros [E|H].
      * inversion E; subst. right. split; [reflexivity|].
        right. exists vs0. split; [now left | reflexivity].
      * left. now right.
    + intros [E|H].
      * left. now left.
      * destruct (IH H) as [H'|[-> [->|[vs1 [H1 ->]]]]].
        -- left. now right.
        -- right. split; [reflexivity | now left].
        -- right. split; [reflexivity|]. right. exists vs1.
           split; [now right | reflexivity].
Qed.

(** Every cluster built from a list of distinct names is a non-empty
    list of distinct names of [l] that share its key. *)
Lemma clusters_fold_good l :
  forall clusters,
    NoDup l ->
    (forall k vs, In (k, vs) clusters ->
                  good_cluster k vs /\ forall v, In v vs -> ~ In v l) ->
    forall k vs,
      In (k, vs)
         (fold_left (fun clusters name =>
                       cluster_append (cluster_key name) name clusters)
                    l clusters) ->
      good_cluster k vs.
Proof.
  induction l as [|a l IH]; intros clusters Hnd Hcl k vs Hin;
    cbn [fold_left] in Hin.
  - now apply Hcl.
  - inversion Hnd as [|? ? Ha Hl]; subst.
    apply (IH (cluster_append (cluster_key a) a clusters) Hl); [|exact Hin].
    clear k vs Hin. intros k vs Hin.
    apply cluster_append_In in Hin.
    destruct Hin as [H|[-> [->|[vs0 [H0 ->]]]]].
    + destruct (Hcl k vs H) as [Hg Hn]. split; [exact Hg|].
      intros v Hv Hvl. apply (Hn v Hv). now right.
    + split.
      * repeat split.
        -- discriminate.
        -- intros v [<-|[]]. reflexivity.
        -- repeat constructor. intros [].
      * intros v [<-|[]]. exact Ha.
    + destruct (Hcl _ _ H0) as [[Hne [Hkey Hnd0]] Hn]. split.
      * repeat split.
        -- destruct vs0; discriminate.
        -- intros v Hv. apply in_app_or in Hv.
           destruct Hv as [Hv|[<-|[]]]; [now apply Hkey | reflexivity].
        -- apply NoDup_app_remove_l with (l := []).
           apply Permutation_NoDup with (l := a :: vs0).
           ++ apply Permutation_cons_append.
           ++ constructor; [|exact Hnd0].
              intros Hv. apply (Hn a Hv). now left.
      * intros v Hv Hvl. apply in_app_or in Hv.
        destruct Hv as [Hv|[<-|[]]].
        -- apply (Hn v Hv). now right.
        -- contradiction.
Qed.

Lemma build_clusters_good names k vs :
  In (k, vs) (build_clusters names) -> good_cluster k vs.
Proof.
  unfold build_clusters.
  apply clusters_fold_good; [apply unique_NoDup | intros ? ? []].
Qed.

(** *** The canonical name of a cluster *)

Lemma acronym_matches_nil key variants :
  (forall v, In v variants -> acronym_form v <> key) ->
  acronym_matches key variants = [].
Proof.
  intros H. unfold acronym_matches.
  induction variants as [|a r IH]; [reflexivity|].
  cbn [filter].
  destruct (String.eqb (acronym_form a) key) eqn:E.
  - apply String.eqb_eq in E. exfalso. apply (H a); [now left | exact E].
  - apply IH. intros v Hv. apply H. now right.
Qed.

(** The head of a filter: the first element that passes, after elements
    that do not. *)
Lemma filter_head {A} (p : A -> bool) l m rest :
  filter p l = m :: rest ->
  exists l1 l2,
    l = l1 ++ m :: l2 /\ p m = true /\ forall u, In u l1 -> p u = false.
Proof.
  induction l as [|a l IH]; cbn [filter]; [discriminate|].
  destruct (p a) eqn:E.
  - intros H. inversion H; subst. exists [], l.
    split; [reflexivity|]. split; [exact E | intros u []].
  - intros H. destruct (IH H) as [l1 [l2 [-> [Hm Hl]]]].
    exists (a :: l1), l2. split; [reflexivity|]. split; [exact Hm|].
    intros u [<-|Hu]; [exact E | now apply Hl].
Qed.

Lemma choose_canonical_total key variants :
  variants <> [] -> exists c, choose_canonical key variants = Some c.
Proof.
  intros Hne. unfold choose_canonical.
  destruct (acronym_matches key variants) as [|m rest]; [|now exists m].
  destruct (most_common_variant variants Hne) as [c [n [_ [_ [-> _]]]]].
  now exists c.
Qed.

(** The rows written for the clusters: for every cluster, one row per
    variant, under the canonical name of the cluster. *)
Lemma canonical_rows_spec clusters :
  (forall k vs, In (k, vs) clusters -> vs <> []) ->
  exists rows,
    canonical_rows clusters = Some rows /\
    forall k vs c v,
      In (k, vs) clusters -> choose_canonical k vs = Some c -> In v vs ->
      In {| buyer_name_raw := v; buyer_name_canonical := c |} rows.
Proof.
  induction clusters as [|[k0 vs0] r IH]; intros Hne.
  - exists []. split; [reflexivity | intros ? ? ? ? []].
  - cbn [canonical_rows].
    destruct (choose_canonical_total k0 vs0) as [c0 Hc0].
    { apply (Hne k0). now left. }
    rewrite Hc0.
    destruct IH as [rows [Hr Hrows]].
    { intros k vs H. apply (Hne k). now right. }
    rewrite Hr. eexists. split; [reflexivity|].
    intros k vs c v [E|Hin] Hc Hv; apply in_or_app.
    + inversion E; subst. left. rewrite Hc in Hc0. inversion Hc0; subst.
      unfold cluster_rows.
      apply (in_map (fun v => {| buyer_name_raw := v;
                                buyer_name_canonical := c0 |})). exact Hv.
    + right. now apply (Hrows k vs).
Qed.

Lemma build_canonical_map_rows names :
  exists rows,
    build_canonical_map names = Some rows /\
    forall k vs c v,
      In (k, vs) (build_clusters names) ->
      choose_canonical k vs = Some c -> In v vs ->
      In {| buyer_name_raw := v; buyer_name_canonical := c |} rows.
Proof.
  unfold build_canonical_map. apply canonical_rows_spec.
  intros k vs H. now destruct (build_clusters_good names k vs H).
Qed.

(** The words of [split] are never empty, so the filter of [acronym]
    keeps them all. *)
Lemma split_ws_nonempty s :
  forall cur w, In w (split_ws cur s) -> truthy w = true.
Proof.
  induction s as [|c r IH]; intros cur w; cbn [split_ws].
  - destruct cur; cbn; [intros [] | intros [<-|[]]; reflexivity].
  - destruct (isspace c).
    + destruct cur; cbn [is_empty]; [apply IH|].
      intros [<-|H]; [reflexivity | now apply IH in H].
    + apply IH.
Qed.

Lemma acronym_initials text :
  acronym text = upper (join (map first_char (split text))).
Proof.
  unfold acronym. f_equal. f_equal. f_equal.
  unfold split.
  assert (H : forall w, In w (split_ws "" text) -> truthy w = true)
    by apply split_ws_nonempty.
  induction (split_ws "" text) as [|w r IH]; [reflexivity|].
  cbn [filter]. rewrite (H w (or_introl eq_refl)). f_equal.
  apply IH. intros u Hu. apply H. now right.
Qed.




(** X29.  In a cluster the script builds every name occurs once,
    however often it occurs in the column: when no variant has the
    acronym form, the canonical name is the first variant of the cluster,
    the spelling met first. *)
Lemma canonical_of_built_cluster_is_first :
  forall (names : list cell) (key : string) (variants : list string),
    In (key, variants) (build_clusters names) ->
    (forall v, In v variants -> acronym_form v <> key) ->
    choose_canonical key variants = hd_error variants.
Proof.
  intros names key variants Hcl Hno.
  destruct (build_clusters_good names key variants Hcl) as [Hne [_ Hnd]].
  destruct (most_common_variant variants Hne)
    as [c [n [earlier [later [Hm [Hsplit [Hfirst [Hlt Hle]]]]]]]].
  unfold choose_canonical.
  rewrite (acronym_matches_nil key variants Hno), Hm.
  destruct earlier as [|e earlier]; [now rewrite Hsplit|].
  exfalso.
  assert (He : In e variants) by (rewrite Hsplit; now left).
  assert (Hc : In c variants)
    by (rewrite Hsplit; apply in_or_app; right; now left).
  pose proof (Hlt e (or_introl eq_refl)) as H.
  rewrite (NoDup_count_occ' string_dec) in Hnd.
  rewrite (Hnd e He), (Hnd c Hc) in H. lia.
Qed.

(** C2.  In a cluster that [build_canonical_map] builds, all variants
    share the key, which is the upper-cased initials of the words of the
    normalised name when it has more than one word and the upper-cased
    normalised name otherwise.  If some variant, stripped of blanks and
    upper-cased, equals the key, the canonical name is the first such
    variant, and every variant of the cluster gets a row under it.  The
    choice does not look at frequencies: for any list of variants, with
    any repetitions, an acronym-form variant is chosen when there is
    one. *)
Theorem acronym_variant_is_canonical :
  forall (names : list cell) (key : string) (variants : list string)
         (v : string),
    In (key, variants) (build_clusters names) ->
    In v variants ->
    acronym_form v = key ->
    (exists canonical earlier later rows,
        choose_canonical key variants = Some canonical /\
        acronym_form canonical = key /\
        variants = earlier ++ canonical :: later /\
        (forall u, In u earlier -> acronym_form u <> key) /\
        build_canonical_map names = Some rows /\
        (forall u, In u variants ->
                   In {| buyer_name_raw := u;
                         buyer_name_canonical := canonical |} rows)) /\
    (forall u, In u variants -> cluster_key u = key) /\
    (forall u,
        cluster_key u =
          let norm := basic_normalize (Some u) in
          if 1 <? List.length (split norm)
          then upper (join (map first_char (split norm)))
          else upper norm) /\
    (forall key' variants' m,
        In m variants' -> acronym_form m = key' ->
        exists c, choose_canonical key' variants' = Some c /\
                  In c variants' /\ acronym_form c = key').
Proof.
  intros names key variants v Hcl Hv Hform.
  assert (Hany : forall key' variants' m,
             In m variants' -> acronym_form m = key' ->
             exists c earlier later,
               choose_canonical key' variants' = Some c /\
               variants' = earlier ++ c :: later /\
               acronym_form c = key' /\
               forall u, In u earlier -> acronym_form u <> key').
  { intros key' variants' m Hm Hf. unfold choose_canonical, acronym_matches.
    destruct (filter (fun v0 => String.eqb (acronym_form v0) key') variants')
      as [|c rest] eqn:Ef.
    - exfalso.
      assert (Hin : In m (filter (fun v0 => String.eqb (acronym_form v0) key')
                                 variants')).
      { apply filter_In. split; [exact Hm | now apply String.eqb_eq]. }
      rewrite Ef in Hin. destruct Hin.
    - destruct (filter_head _ _ _ _ Ef) as [l1 [l2 [Hs [Hc Hl]]]].
      exists c, l1, l2. split; [reflexivity|]. split; [exact Hs|].
      split; [now apply String.eqb_eq|].
      intros u Hu. apply String.eqb_neq. now apply Hl. }
  destruct (build_clusters_good names key variants Hcl) as [_ [Hkey _]].
  destruct (build_canonical_map_rows names) as [rows [Hrows Hin]].
  destruct (Hany key variants v Hv Hform)
    as [c [earlier [later [Hc [Hs [Hf He]]]]]].
  split; [|split; [|split]].
  - exists c, earlier, later, rows. repeat split; auto.
    intros u Hu. now apply (Hin key variants).
  - exact Hkey.
  - intros u. unfold cluster_key. cbv zeta.
    now rewrite acronym_initials.
  - intros key' variants' m Hm Hfm.
    destruct (Hany key' variants' m Hm Hfm) as [c' [e' [l' [H1 [H2 [H3 _]]]]]].
    exists c'. split; [exact H1|]. split; [|exact H3].
    rewrite H2. apply in_or_app. right. now left.
Qed.

Lemma acronym_variant_is_canonical_witness :
  build_clusters dft_names
    = [("DFT", ["Department for Transport"; "DfT"; "DFT"])] /\
  choose_canonical "DFT" ["Department for Transport"; "DfT"; "DFT"]
    = Some "DfT" /\
  choose_canonical
    "DFT" ["Department for Transport"; "Department for Transport"; "DfT"]
    = Some "DfT" /\
  forall u, In u ["Department for Transport"; "DfT"; "DFT"] ->
            cluster_key u = "DFT".
Proof.
  split; [vm_compute; reflexivity|].
  split; [vm_compute; reflexivity|].
  split; [vm_compute; reflexivity|].
  refine (proj1 (proj2 (acronym_variant_is_canonical
            dft_names "DFT" ["Department for Transport"; "DfT"; "DFT"] "DfT"
            _ _ _))).
  - vm_compute. left. reflexivity.
  - right. left. reflexivity.
  - vm_compute. reflexivity.
Defined.

(** *** The cleaned table *)

Lemma drop_duplicates_from_In {A} (df : list (contract A)) :
  forall seen r, In r (drop_duplicates_from seen df) -> In r df.
Proof.
  induction df as [|a df IH]; intros seen r; cbn [drop_duplicates_from];
    [intros []|].
  destruct (existsb (cell_eqb (ocid a)) seen).
  - intros H. right. now apply IH in H.
  - intros [<-|H]; [now left | right; now apply IH in H].
Qed.

(** C10.  Every row of the cleaned table has an amount strictly above
    zero and is the rewriting of a row of the input.  A missing amount
    and a text that is no decimal are read as [0.0], and a row whose
    amount is read as [0.0] is not in the cleaned table. *)
Theorem cleaned_amounts_positive :
  forall (df : list (contract cell)) (cleaned : list (contract float))
         (buyer_map : list map_row),
    run df = Some (cleaned, buyer_map) ->
    (forall r, In r cleaned ->
               (0 <? value_amount r)%float = true /\
               exists r0, In r0 df /\ r = rewrite_row buyer_map r0 /\
                          value_amount r = clean_financials (value_amount r0)) /\
    (clean_financials None = 0%float /\
     forall s, float_of_decimal (keep_digits_dots s) = None ->
               clean_financials (Some s) = 0%float) /\
    (forall r0, In r0 df ->
                clean_financials (value_amount r0) = 0%float ->
                ~ In (rewrite_row buyer_map r0) cleaned).
Proof.
  intros df cleaned buyer_map Hrun.
  unfold run in Hrun.
  destruct (build_canonical_map (map buyer_name df)) as [[|m bm]|];
    try discriminate.
  inversion Hrun; subst cleaned buyer_map. clear Hrun.
  set (buyer_map := m :: bm).
  assert (Hpos : forall r,
             In r (filter (fun r => (0 <? value_amount r)%float)
                          (drop_duplicates (map (rewrite_row buyer_map) df))) ->
             (0 <? value_amount r)%float = true).
  { intros r Hr. apply filter_In in Hr. tauto. }
  split; [|split].
  - intros r Hr. split; [now apply Hpos|].
    apply filter_In in Hr. destruct Hr as [Hr _].
    apply drop_duplicates_from_In, in_map_iff in Hr.
    destruct Hr as [r0 [<- Hr0]]. exists r0. now repeat split.
  - split; [reflexivity|]. intros s Hs. unfold clean_financials.
    now rewrite Hs.
  - intros r0 Hr0 Hz Hin. apply Hpos in Hin.
    cbn [rewrite_row value_amount] in Hin. rewrite Hz in Hin.
    vm_compute in Hin. discriminate.
Qed.

Lemma cleaned_amounts_positive_witness :
  option_map (fun out => map (fun r => (ocid r, value_amount r)) (fst out))
             (run raw_table)
    = Some [(Some "ocds-1", 1500.5%float)] /\
  forall r cleaned buyer_map,
    run raw_table = Some (cleaned, buyer_map) ->
    In r cleaned -> (0 <? value_amount r)%float = true.
Proof.
  split; [vm_compute; reflexivity|].
  intros r cleaned buyer_map Hrun Hr.
  exact (proj1 (proj1 (cleaned_amounts_positive raw_table cleaned buyer_map
                         Hrun) r Hr)).
Defined.

End CleanFacts.

(* ================================================================= *)
(** ** More on the ingestion *)

Section IngestMore.
Import Py ContractsFinder.

(** *** [safe_get] *)

Lemma safe_get_from_first_success requests_get req backoff r :
  forall k attempt remaining w,
    k < remaining ->
    (forall j, j < k -> requests_get (calls w + j) req = RequestException) ->
    requests_get (calls w + k) req = Returned r ->
    safe_get_from requests_get req backoff attempt remaining w =
      (Got r,
       {| calls := calls w + S k;
          trace := trace w ++
                   flat_map (backoff_events req backoff) (seq attempt k) ++
                   [Requested req];
          cursor_file := cursor_file w |}).
Proof.
  induction k as [|k IH]; intros attempt remaining w Hk Hfail Hok;
    destruct remaining as [|n]; try lia; cbn [safe_get_from log calls].
  - rewrite Nat.add_0_r in Hok. rewrite Hok.
    unfold count_call, log.
    cbn [calls trace cursor_file seq flat_map app].
    f_equal. f_equal. lia.
  - pose proof (Hfail 0 (Nat.lt_0_succ k)) as H0.
    rewrite Nat.add_0_r in H0. rewrite H0.
    rewrite (IH (S attempt) n).
    + cbn [log count_call calls trace cursor_file seq flat_map backoff_events].
      f_equal. f_equal; [lia|].
      rewrite <- !app_assoc. reflexivity.
    + lia.
    + intros j Hj. cbn [log count_call calls].
      replace (S (calls w) + j) with (calls w + S j) by lia.
      apply Hfail. lia.
    + cbn [log count_call calls].
      replace (S (calls w) + k) with (calls w + S k) by lia. exact Hok.
Qed.

(** X1.  When the first [k] attempts fail at the network level and the
    next one, still within [retries], gets a response, [safe_get] returns
    that response, whatever its status, after [k + 1] requests; it has
    slept [backoff * (attempt + 1)] seconds after each failure and does
    not sleep after the success. *)
Theorem safe_get_returns_first_response :
  forall (requests_get : nat -> request -> get_outcome) (req : request)
         (retries backoff k : nat) (w : world) (r : response),
    k < retries ->
    (forall j, j < k -> requests_get (calls w + j) req = RequestException) ->
    requests_get (calls w + k) req = Returned r ->
    safe_get requests_get req retries backoff w =
      (Got r,
       {| calls := calls w + S k;
          trace := trace w ++
                   flat_map (backoff_events req backoff) (seq 0 k) ++
                   [Requested req];
          cursor_file := cursor_file w |}).
Proof.
  intros. unfold safe_get. now apply safe_get_from_first_success.
Qed.

Lemma safe_get_returns_first_response_witness :
  safe_get flaky_network first_request MAX_RETRIES 2 fresh_world =
    (Got {| status_code := 503; body := None |},
     {| calls := 3;
        trace := [Requested first_request; Slept (PyInt 2);
                  Requested first_request; Slept (PyInt 4);
                  Requested first_request];
        cursor_file := None |}).
Proof.
  refine (safe_get_returns_first_response flaky_network first_request
            MAX_RETRIES 2 2 fresh_world _ _ _ _).
  - unfold MAX_RETRIES. lia.
  - intros j Hj. destruct j as [|[|j]]; [reflexivity | reflexivity | lia].
  - reflexivity.
Defined.

Lemma safe_get_from_bounded requests_get req backoff :
  forall remaining attempt w,
    let out := safe_get_from requests_get req backoff attempt remaining w in
    calls w <= calls (snd out) <= calls w + remaining /\
    cursor_file (snd out) = cursor_file w /\
    (exists events, trace (snd out) = trace w ++ events) /\
    (fst out = RuntimeError -> calls (snd out) = calls w + remaining).
Proof.
  induction remaining as [|n IH]; intros attempt w; cbn zeta.
  - cbn [safe_get_from fst snd]. repeat split; try lia.
    exists []. now rewrite app_nil_r.
  - cbn [safe_get_from log calls].
    destruct (requests_get (calls w) req) as [r|].
    + cbn [fst snd count_call log calls cursor_file trace].
      repeat split; try lia; [now eexists | discriminate].
    + specialize (IH (S attempt)
                     (log (Slept (PyInt (Z.of_nat (backoff * (attempt + 1)))))
                          (count_call (log (Requested req) w)))).
      cbn zeta in IH.
      cbn [log count_call calls cursor_file trace] in IH.
      destruct IH as [Hc [Hf [[events He] Hr]]].
      repeat split; try lia; try assumption.
      * eexists. rewrite He, <- !app_assoc. reflexivity.
      * intros E. rewrite (Hr E). lia.
Qed.

Lemma safe_get_bounded_aux :
  forall (requests_get : nat -> request -> get_outcome) (req : request)
         (retries backoff : nat) (w : world),
    calls w <= calls (snd (safe_get requests_get req retries backoff w))
            <= calls w + retries /\
    cursor_file (snd (safe_get requests_get req retries backoff w))
      = cursor_file w /\
    (exists events,
        trace (snd (safe_get requests_get req retries backoff w))
          = trace w ++ events) /\
    (fst (safe_get requests_get req retries backoff w) = RuntimeError ->
     calls (snd (safe_get requests_get req retries backoff w))
       = calls w + retries).
Proof.
  intros. unfold safe_get.
  exact (safe_get_from_bounded requests_get req backoff retries 0 w).
Qed.

(** X2.  On any network [safe_get] makes at most [retries] requests, never
    touches the cursor file, only adds to what has been done, and raises
    [RuntimeError] only when it has made all [retries] requests. *)
Theorem safe_get_is_bounded :
  forall (requests_get : nat -> request -> get_outcome) (req : request)
         (retries backoff : nat) (w : world),
    calls w <= calls (snd (safe_get requests_get req retries backoff w))
            <= calls w + retries /\
    cursor_file (snd (safe_get requests_get req retries backoff w))
      = cursor_file w /\
    (exists events,
        trace (snd (safe_get requests_get req retries backoff w))
          = trace w ++ events) /\
    (fst (safe_get requests_get req retries backoff w) = RuntimeError ->
     calls (snd (safe_get requests_get req retries backoff w))
       = calls w + retries).
Proof. exact safe_get_bounded_aux. Qed.


(** *** The loop *)

Lemma safe_get_trace_starts requests_get req retries backoff w :
  0 < retries ->
  exists events,
    trace (snd (safe_get requests_get req retries backoff w))
      = trace w ++ Requested req :: events.
Proof.
  unfold safe_get. destruct retries as [|n]; [lia|]. intros _.
  cbn [safe_get_from log calls].
  destruct (requests_get (calls w) req) as [r|].
  - exists []. reflexivity.
  - destruct (safe_get_from_bounded requests_get req backoff n 1
                (log (Slept (PyInt (Z.of_nat (backoff * (0 + 1)))))
                     (count_call (log (Requested req) w))))
      as [_ [_ [[events He] _]]].
    rewrite He. unfold log, count_call. cbn [trace].
    eexists. rewrite <- !app_assoc. reflexivity.
Qed.

Lemma fetch_loop_trace_extends requests_get fuel :
  forall st,
    exists events,
      trace (the_world (fst (fetch_loop requests_get fuel st)))
        = trace (the_world st) ++ events.
Proof.
  induction fuel as [|fuel IH]; intros st.
  - exists []. cbn. now rewrite app_nil_r.
  - cbn [fetch_loop].
    destruct (safe_get_bounded_aux requests_get
                (if first_page st then first_request
                 else {| url := next_url st; params := None |})
                MAX_RETRIES 2 (the_world st)) as [_ [_ [[ev0 He0] _]]].
    destruct (safe_get requests_get _ MAX_RETRIES 2 (the_world st))
      as [got w]. cbn [snd] in He0.
    destruct got as [resp|]; [|exists ev0; exact He0].
    destruct (negb (status_code resp =? 200)); [exists ev0; exact He0|].
    destruct (body resp) as [data|]; [|exists ev0; exact He0].
    cbn [acc].
    destruct (releases data) as [|r rs]; [exists ev0; exact He0|].
    destruct (process_page (acc st) (r :: rs)) as [a'|a'];
      [|exists ev0; exact He0].
    destruct (next_link data) as [next|]; [|exists ev0; exact He0].
    destruct (truthy next); [|exists ev0; exact He0].
    match goal with
    | |- context [fetch_loop requests_get fuel ?s] =>
        destruct (IH s) as [ev1 He1]
    end.
    rewrite He1. unfold save_last_cursor, log. cbn [the_world trace].
    rewrite He0. eexists. rewrite <- !app_assoc. reflexivity.
Qed.

(** X3.  A run that fetches at least one page opens with one request: to
    the cursor a previous run has left, stripped of surrounding blanks
    and without query parameters, when the cursor file exists; to the
    search address with the page size and the two dates when it does
    not. *)
Theorem run_resumes_from_cursor :
  forall (requests_get : nat -> request -> get_outcome) (fuel : nat)
         (w : world),
  exists rest,
    trace (the_world (fst (fetch_loop requests_get (S fuel) (initial_state w))))
      = trace w ++ Requested (opening_request w) :: rest.
Proof.
  intros requests_get fuel w.
  assert (Hreq : (if first_page (initial_state w) then first_request
                  else {| url := next_url (initial_state w); params := None |})
                 = opening_request w).
  { unfold initial_state, opening_request. cbn [first_page next_url].
    destruct (load_last_cursor w); reflexivity. }
  cbn [fetch_loop]. rewrite Hreq.
  destruct (safe_get_trace_starts requests_get (opening_request w)
              MAX_RETRIES 2 (the_world (initial_state w)))
    as [ev0 He0]; [unfold MAX_RETRIES; lia|].
  change (the_world (initial_state w)) with w in *.
  destruct (safe_get requests_get (opening_request w) MAX_RETRIES 2 w)
    as [got w1]. cbn [snd] in He0.
  destruct got as [resp|]; [|exists ev0; exact He0].
  destruct (negb (status_code resp =? 200)); [exists ev0; exact He0|].
  destruct (body resp) as [data|]; [|exists ev0; exact He0].
  cbn [acc].
  destruct (releases data) as [|r rs]; [exists ev0; exact He0|].
  destruct (process_page _ (r :: rs)) as [a'|a']; [|exists ev0; exact He0].
  destruct (next_link data) as [next|]; [|exists ev0; exact He0].
  destruct (truthy next); [|exists ev0; exact He0].
  match goal with
  | |- context [fetch_loop requests_get fuel ?s] =>
      destruct (fetch_loop_trace_extends requests_get fuel s) as [ev1 He1]
  end.
  rewrite He1. unfold save_last_cursor, log. cbn [the_world trace].
  rewrite He0. eexists. rewrite <- !app_assoc. cbn [app]. reflexivity.
Qed.

(** X4.  The accumulated list only grows: after any number of pages,
    and whether the loop ended, was interrupted by an exception or is
    still running, the list holds the rows it held before, in their
    order, followed by the new ones. *)
Theorem accumulation_is_append_only :
  forall (requests_get : nat -> request -> get_outcome) (fuel : nat)
         (st : run_state),
  exists more,
    all_contracts (acc (fst (fetch_loop requests_get fuel st)))
      = all_contracts (acc st) ++ more.
Proof.
  intros requests_get fuel st.
  apply (fetch_loop_preserves
           (fun a => exists more,
                all_contracts a = all_contracts (acc st) ++ more)).
  - intros a release [more Hm].
    destruct (process_release_cases a release) as [E | [row [E _]]];
      rewrite E; cbn [left_behind all_contracts].
    + now exists more.
    + exists (more ++ [row]). now rewrite Hm, app_assoc.
  - exists []. now rewrite app_nil_r.
Qed.

Lemma take_length n : forall s, String.length (take n s) <= n.
Proof.
  induction n as [|n IH]; intros s; destruct s; cbn; try lia.
  specialize (IH s). lia.
Qed.

Lemma process_release_row_ok a release :
  left_behind (process_release a release) = a \/
  exists row,
    left_behind (process_release a release) =
      {| all_contracts := all_contracts a ++ [row];
         seen_ocids := ocid row :: seen_ocids a |} /\
    well_formed_row row.
Proof.
  unfold process_release.
  destruct (r_ocid release) as [o|]; [|now left].
  destruct (is_empty o) eqn:Ee; [now left|].
  destruct (CleanData.mem o (seen_ocids a)); [now left|].
  cbn [orb].
  destruct (String.eqb _ "UNKNOWN"); [now left|].
  destruct (accepted_prefix _); [|now left].
  cbn [negb].
  destruct (extract_value _ release) as [amount_ currency_].
  destruct (get_default (r_tender release) empty_tender) as [t|];
    [|now left].
  right. eexists (Build_contract o _ _ _ _ _ _ _ _ _ _).
  split; [reflexivity|]. unfold well_formed_row.
  cbn [ocid description source]. repeat split.
  - intros ->. discriminate.
  - apply take_length.
Qed.

Lemma well_formed_step a release :
  Forall well_formed_row (all_contracts a) ->
  Forall well_formed_row
         (all_contracts (left_behind (process_release a release))).
Proof.
  intros Ha.
  destruct (process_release_row_ok a release) as [E | [row [E Hrow]]];
    rewrite E; [exact Ha|].
  cbn [all_contracts]. apply Forall_app. split; [exact Ha|].
  constructor; [exact Hrow | constructor].
Qed.

(** X5.  Every row the run accumulates has a non-empty [ocid], a
    description of at most 500 characters and the source
    ["UK Contracts Finder"]. *)
Theorem accumulated_rows_are_well_formed :
  forall (requests_get : nat -> request -> get_outcome) (fuel : nat)
         (w : world) (row : contract),
    In row (all_contracts
              (acc (fst (fetch_loop requests_get fuel (initial_state w))))) ->
    well_formed_row row.
Proof.
  intros requests_get fuel w row Hin.
  pose proof (fetch_loop_preserves
                (fun a => Forall well_formed_row (all_contracts a))
                well_formed_step requests_get fuel (initial_state w)
                (Forall_nil _)) as H.
  rewrite Forall_forall in H. now apply H.
Qed.

Lemma accumulated_rows_are_well_formed_witness :
  Forall well_formed_row
         (all_contracts
            (acc (fst (fetch_loop two_page_listing 5
                                  (initial_state fresh_world))))).
Proof.
  apply Forall_forall. intros row Hin.
  exact (accumulated_rows_are_well_formed two_page_listing 5 fresh_world
           row Hin).
Defined.

(** X6.  A release with a new [ocid], a [null] tender and an accepted
    classification of its own makes the loop body raise: the page is
    abandoned at that release, nothing of it or of the releases after it
    is stored, and the accumulator stays as it was. *)
Theorem null_tender_aborts_the_page :
  forall (a : accumulator) (release : release_obj) (rest : list release_obj)
         (o : string),
    r_ocid release = Some o ->
    is_empty o = false ->
    ~ In o (seen_ocids a) ->
    r_tender release = Null ->
    accepted_prefix (release_cpv release) = true ->
    process_release a release = Raised a /\
    process_page a (release :: rest) = Raised a.
Proof.
  intros a release rest o Ho Hne Hnew Hnull Hacc.
  assert (Hr : process_release a release = Raised a).
  { unfold process_release. rewrite Ho, Hne.
    destruct (CleanData.mem o (seen_ocids a)) eqn:Em;
      [apply mem_In in Em; contradiction|].
    cbn [orb]. rewrite Hnull. cbn [get_default extract_cpv].
    destruct (String.eqb (release_cpv release) "UNKNOWN") eqn:Eu.
    - apply String.eqb_eq in Eu. rewrite Eu in Hacc. discriminate.
    - rewrite Hacc. cbn [negb].
      destruct (extract_value None release). reflexivity. }
  split; [exact Hr|]. cbn [process_page]. now rewrite Hr.
Qed.

Lemma null_tender_aborts_the_page_witness :
  process_page {| all_contracts := []; seen_ocids := [] |}
               [release_with_null_tender "ocds-9" "45000000";
                release_with_code (Some "ocds-1") "45210000-2"]
    = Raised {| all_contracts := []; seen_ocids := [] |}.
Proof.
  refine (proj2 (null_tender_aborts_the_page
                   {| all_contracts := []; seen_ocids := [] |}
                   (release_with_null_tender "ocds-9" "45000000")
                   [release_with_code (Some "ocds-1") "45210000-2"]
                   "ocds-9" eq_refl eq_refl _ eq_refl eq_refl)).
  intros [].
Defined.

(** Once the loop has ended within [fuel] pages, normally or by an
    exception, allowing it more pages changes neither the state it ends
    in nor the way it ends. *)
Theorem ended_run_ignores_more_fuel :
  forall (requests_get : nat -> request -> get_outcome) (fuel : nat)
         (st st' : run_state) (how : exit),
    fetch_loop requests_get fuel st = (st', how) ->
    how <> StillRunning ->
    forall more, fetch_loop requests_get (fuel + more) st = (st', how).
Proof.
  intros requests_get fuel.
  induction fuel as [|fuel IH]; intros st st' how Hrun Hend more.
  - cbn in Hrun. inversion Hrun; subst. congruence.
  - cbn [Nat.add]. cbn [fetch_loop] in Hrun |- *.
    destruct (safe_get requests_get _ MAX_RETRIES 2 (the_world st))
      as [got w].
    destruct got as [resp|]; [|exact Hrun].
    destruct (negb (status_code resp =? 200)); [exact Hrun|].
    destruct (body resp) as [data|]; [|exact Hrun].
    cbn [acc] in Hrun |- *.
    destruct (releases data) as [|r rs]; [exact Hrun|].
    destruct (process_page (acc st) (r :: rs)) as [a'|a']; [|exact Hrun].
    destruct (next_link data) as [next|]; [|exact Hrun].
    destruct (truthy next); [|exact Hrun].
    now apply IH.
Qed.

Lemma ended_run_ignores_more_fuel_witness :
  fetch_loop two_page_listing (2 + 40) (initial_state fresh_world)
    = fetch_loop two_page_listing 2 (initial_state fresh_world) /\
  snd (fetch_loop two_page_listing 2 (initial_state fresh_world)) = Finished.
Proof.
  split; [|reflexivity].
  refine (ended_run_ignores_more_fuel two_page_listing 2
            (initial_state fresh_world) _ _
            (surjective_pairing _) _ 40).
  vm_compute. discriminate.
Defined.

(** X7.  Whenever the loop is about to fetch a further page, the cursor
    file holds exactly the address it is about to fetch, and that address
    is not empty: the file is written before the inter-page wait. *)
Theorem cursor_file_names_the_next_page :
  forall (requests_get : nat -> request -> get_outcome) (fuel : nat)
         (st st' : run_state),
    fetch_loop requests_get (S fuel) st = (st', StillRunning) ->
    exists next,
      next_url st' = Some next /\
      cursor_file (the_world st') = Some next /\
      truthy next = true /\
      first_page st' = false.
Proof.
  intros requests_get fuel.
  induction fuel as [|fuel IH]; intros st st' Hrun;
    cbn [fetch_loop] in Hrun;
    destruct (safe_get requests_get _ MAX_RETRIES 2 (the_world st))
      as [got w];
    (destruct got as [resp|]; [|discriminate]);
    (destruct (negb (status_code resp =? 200)); [discriminate|]);
    (destruct (body resp) as [data|]; [|discriminate]);
    cbn [acc] in Hrun;
    (destruct (releases data) as [|r rs]; [discriminate|]);
    (destruct (process_page (acc st) (r :: rs)) as [a'|a'];
     [|discriminate]);
    (destruct (next_link data) as [next|]; [|discriminate]);
    (destruct (truthy next) eqn:Et; [|discriminate]).
  - inversion Hrun; subst st'. exists next.
    cbn [next_url the_world first_page].
    unfold save_last_cursor, log. cbn [cursor_file]. auto.
  - apply IH in Hrun. exact Hrun.
Qed.

Lemma cursor_file_names_the_next_page_witness :
  exists next,
    next_url (fst (fetch_loop endless_listing 3 (initial_state fresh_world)))
      = Some next /\
    cursor_file
      (the_world (fst (fetch_loop endless_listing 3
                                  (initial_state fresh_world))))
      = Some next /\
    truthy next = true /\
    first_page (fst (fetch_loop endless_listing 3 (initial_state fresh_world)))
      = false.
Proof.
  refine (cursor_file_names_the_next_page endless_listing 2
            (initial_state fresh_world) _ _).
  vm_compute. reflexivity.
Defined.


(** X8.  A tender classification that is a dict decides alone: when its
    ["id"] is missing or holds no digit the code is ["UNKNOWN"], the
    classification of the release itself is not consulted, and the
    release is not stored. *)
Theorem tender_dict_without_code_drops_release :
  forall (a : accumulator) (release : release_obj) (t : tender_obj)
         (id : option string),
    r_tender release = Val t ->
    t_classification t = ClsDict id ->
    normalize_cpv id = "UNKNOWN" ->
    extract_cpv (Some t) release = "UNKNOWN" /\
    process_release a release = Ok a.
Proof.
  intros a release t id Ht Hc Hu.
  assert (E : extract_cpv (Some t) release = "UNKNOWN").
  { unfold extract_cpv. now rewrite Hc. }
  split; [exact E|].
  unfold process_release.
  destruct (r_ocid release) as [o|]; [|reflexivity].
  destruct (is_empty o || CleanData.mem o (seen_ocids a)); [reflexivity|].
  rewrite Ht. cbn [get_default]. rewrite E. reflexivity.
Qed.

Lemma tender_dict_without_code_drops_release_witness :
  process_release
    {| all_contracts := []; seen_ocids := [] |}
    {| r_ocid := Some "ocds-4";
       r_tender := Val {| t_classification := ClsDict (Some "n/a");
                          t_value := None; t_title := Absent;
                          t_description := None; t_status := None |};
       r_classification := ClsDict (Some "45000000");
       r_value := None; r_date := None; r_buyer := None; r_parties := [] |}
    = Ok {| all_contracts := []; seen_ocids := [] |}.
Proof.
  exact (proj2 (tender_dict_without_code_drops_release
                  {| all_contracts := []; seen_ocids := [] |}
                  {| r_ocid := Some "ocds-4";
                     r_tender :=
                       Val {| t_classification := ClsDict (Some "n/a");
                              t_value := None; t_title := Absent;
                              t_description := None; t_status := None |};
                     r_classification := ClsDict (Some "45000000");
                     r_value := None; r_date := None; r_buyer := None;
                     r_parties := [] |}
                  {| t_classification := ClsDict (Some "n/a");
                     t_value := None; t_title := Absent;
                     t_description := None; t_status := None |}
                  (Some "n/a") eq_refl eq_refl eq_refl)).
Defined.

(** X9.  A response with a status other than 200 to the opening request
    is not retried: the run makes that one request, stores nothing,
    leaves the cursor file as it was, writes no table and ends without
    an exception. *)
Theorem error_status_stops_the_run :
  forall (requests_get : nat -> request -> get_outcome) (fuel : nat)
         (w : world) (resp : response),
    requests_get (calls w) (opening_request w) = Returned resp ->
    status_code resp <> 200 ->
    fetch_2025_construction_contracts requests_get (S fuel) w =
      ({| acc := {| all_contracts := []; seen_ocids := [] |};
          next_url := load_last_cursor w;
          first_page := false;
          page_count := 1;
          the_world :=
            {| calls := S (calls w);
               trace := trace w ++ [Requested (opening_request w)];
               cursor_file := cursor_file w |} |},
       Finished, None).
Proof.
  intros requests_get fuel w resp Hresp Hstatus.
  unfold fetch_2025_construction_contracts. cbn [fetch_loop].
  assert (Hreq : (if first_page (initial_state w) then first_request
                  else {| url := next_url (initial_state w); params := None |})
                 = opening_request w).
  { unfold initial_state, opening_request. cbn [first_page next_url].
    destruct (load_last_cursor w); reflexivity. }
  rewrite Hreq.
  change (the_world (initial_state w)) with w.
  unfold safe_get, MAX_RETRIES. cbn [safe_get_from log calls].
  rewrite Hresp.
  apply Nat.eqb_neq in Hstatus. rewrite Hstatus. cbn [negb].
  unfold count_call, log, initial_state. cbn. reflexivity.
Qed.

Lemma error_status_stops_the_run_witness :
  fetch_2025_construction_contracts
    (fun _ _ => Returned {| status_code := 503; body := None |}) 9
    resumed_world =
    ({| acc := {| all_contracts := []; seen_ocids := [] |};
        next_url := Some "https://page-7";
        first_page := false;
        page_count := 1;
        the_world :=
          {| calls := 1;
             trace := [Requested {| url := Some "https://page-7";
                                    params := None |}];
             cursor_file := Some "https://page-7 " |} |},
     Finished, None).
Proof.
  refine (error_status_stops_the_run
            (fun _ _ => Returned {| status_code := 503; body := None |}) 8
            resumed_world {| status_code := 503; body := None |} eq_refl _).
  cbn. discriminate.
Defined.

End IngestMore.

(* ================================================================= *)
(** ** More on the risk engine *)

Ltac as_pos_compare :=
  repeat match goal with
         | H : context [Pos.compare_cont Eq ?a ?b] |- _ =>
             change (Pos.compare_cont Eq a b) with (Pos.compare a b) in H
         | |- context [Pos.compare_cont Eq ?a ?b] =>
             change (Pos.compare_cont Eq a b) with (Pos.compare a b)
         end.

Ltac by_comparisons :=
  repeat match goal with
         | H : context [Z.compare ?a ?b] |- _ =>
             destruct (Z.compare_spec a b); simpl in H
         | |- context [Z.compare ?a ?b] =>
             destruct (Z.compare_spec a b); simpl
         | H : context [Pos.compare ?a ?b] |- _ =>
             destruct (Pos.compare_spec a b); simpl in H
         | |- context [Pos.compare ?a ?b] =>
             destruct (Pos.compare_spec a b); simpl
         end.

Section PqeMore.
Import Py PqeEngine.

(** *** Floats *)

Lemma SFltb_zero_false x : nonneg_sf x -> SFltb x (S754_zero false) = false.
Proof.
  unfold SFltb.
  destruct x as [s|s| |s m e]; cbn [nonneg_sf SFcompare]; intros H; subst;
    reflexivity.
Qed.

Lemma nonneg_not_below_zero x :
  nonneg_sf (Prim2SF x) -> (x <? 0)%float = false.
Proof.
  rewrite ltb_spec, Prim2SF_zero. apply SFltb_zero_false.
Qed.

Lemma SFleb_trans x y z :
  SFleb x y = true -> SFleb y z = true -> SFleb x z = true.
Proof.
  unfold SFleb.
  destruct x as [sx|sx| |sx mx ex], y as [sy|sy| |sy my ey],
           z as [sz|sz| |sz mz ez];
    intros H1 H2; try discriminate; try reflexivity;
    repeat match goal with s : bool |- _ => destruct s end;
    simpl in *; try discriminate; try reflexivity;
    as_pos_compare; by_comparisons;
    try discriminate; try reflexivity; subst; lia.
Qed.

Lemma leb_trans a b c :
  (a <=? b)%float = true -> (b <=? c)%float = true -> (a <=? c)%float = true.
Proof. rewrite !leb_spec. apply SFleb_trans. Qed.

Lemma nan_is_nan x : is_nan x = true -> x = nan.
Proof.
  intros H. apply is_nan_spec in H. apply Prim2SF_inj. rewrite H. reflexivity.
Qed.

Lemma div_by_nan x : (x / nan)%float = nan.
Proof.
  apply Prim2SF_inj. rewrite div_spec.
  change (Prim2SF nan) with S754_nan.
  destruct (Prim2SF x); reflexivity.
Qed.

Lemma nan_div x : (nan / x)%float = nan.
Proof.
  apply Prim2SF_inj. rewrite div_spec.
  change (Prim2SF nan) with S754_nan. reflexivity.
Qed.

Lemma nan_mul x : (nan * x)%float = nan.
Proof.
  apply Prim2SF_inj. rewrite mul_spec.
  change (Prim2SF nan) with S754_nan. reflexivity.
Qed.

Lemma mul_nan x : (x * nan)%float = nan.
Proof.
  apply Prim2SF_inj. rewrite mul_spec.
  change (Prim2SF nan) with S754_nan.
  destruct (Prim2SF x); reflexivity.
Qed.

Lemma nan_never_at_most_zero x :
  is_nan x = true ->
  float_or_zero x = nan /\ (float_or_zero x <=? 0)%float = false.
Proof.
  intros H. apply nan_is_nan in H. subst. split; reflexivity.
Qed.

(** X10.  An empty price or carbon factor in the matched reference row
    (NaN) is not caught by the validity check, as long as the other value
    is not zero or negative: the row is marked [CALCULATED], its tonnage
    (when the price is empty) and its CO2e value and bounds are NaN, and
    its tier is LOW. *)
Theorem empty_reference_value_is_calculated :
  forall (materials : list material) (row : contract) (mat : material),
    (clean_currency (value_amount row) <? MIN_SPEND_GBP)%float = false ->
    detect_material (full_text row) materials = Some mat ->
    (is_nan (composite_price_gbp_per_tonne mat) = true /\
     (float_or_zero (carbon_factor_kgco2e_per_tonne mat) <=? 0)%float = false)
    \/
    ((float_or_zero (composite_price_gbp_per_tonne mat) <=? 0)%float = false /\
     is_nan (carbon_factor_kgco2e_per_tonne mat) = true) ->
    exists e,
      added (screen_contract materials row) = Calculated e /\
      status_of (screen_contract materials row) = CALCULATED /\
      is_nan (est_co2e_tonnes e) = true /\
      is_nan (co2e_range_low e) = true /\
      is_nan (co2e_range_high e) = true /\
      risk_category_of e = LOW.
Proof.
  intros materials row mat Hgate Hmat Hnan.
  unfold status_of, screen_contract. rewrite Hgate, Hmat.
  destruct Hnan as [[Hp Hf] | [Hp Hf]].
  - destruct (nan_never_at_most_zero _ Hp) as [Ep Lp].
    rewrite Lp, Hf, Ep. cbn [orb added].
    eexists. split; [reflexivity|]. split; [reflexivity|].
    cbn [est_co2e_tonnes co2e_range_low co2e_range_high risk_category_of].
    rewrite div_by_nan, nan_mul, nan_div, !nan_mul.
    repeat split; reflexivity.
  - destruct (nan_never_at_most_zero _ Hf) as [Ef Lf].
    rewrite Lf, Hp, Ef. cbn [orb added].
    eexists. split; [reflexivity|]. split; [reflexivity|].
    cbn [est_co2e_tonnes co2e_range_low co2e_range_high risk_category_of].
    rewrite mul_nan, nan_div, !nan_mul.
    repeat split; reflexivity.
Qed.

Lemma empty_reference_value_is_calculated_witness :
  exists e,
    added (screen_contract [reference_row "MAT_STEEL" (Some "steel") nan 100]
                           (contract_for "ocds-1" "100000"))
      = Calculated e /\
    status_of (screen_contract
                 [reference_row "MAT_STEEL" (Some "steel") nan 100]
                 (contract_for "ocds-1" "100000")) = CALCULATED /\
    is_nan (est_co2e_tonnes e) = true /\
    is_nan (co2e_range_low e) = true /\
    is_nan (co2e_range_high e) = true /\
    risk_category_of e = LOW.
Proof.
  refine (empty_reference_value_is_calculated
            [reference_row "MAT_STEEL" (Some "steel") nan 100]
            (contract_for "ocds-1" "100000")
            (reference_row "MAT_STEEL" (Some "steel") nan 100) _ _ _).
  - vm_compute. reflexivity.
  - vm_compute. reflexivity.
  - left. split; vm_compute; reflexivity.
Defined.

Lemma float_or_zero_at_most_zero p :
  (p <=? 0)%float = true -> (float_or_zero p <=? 0)%float = true.
Proof.
  unfold float_or_zero. destruct (p =? 0)%float; [reflexivity | trivial].
Qed.

(** X11.  When the matched reference row has a price or a carbon factor
    that is zero or negative, the contract is marked
    [SKIPPED_INVALID_REF] and keeps the two reference values as they are
    in the table. *)
Theorem non_positive_reference_is_skipped :
  forall (materials : list material) (row : contract) (mat : material),
    (clean_currency (value_amount row) <? MIN_SPEND_GBP)%float = false ->
    detect_material (full_text row) materials = Some mat ->
    (composite_price_gbp_per_tonne mat <=? 0)%float = true \/
    (carbon_factor_kgco2e_per_tonne mat <=? 0)%float = true ->
    screen_contract materials row =
      {| source_row := row;
         added := InvalidRef (composite_price_gbp_per_tonne mat)
                             (carbon_factor_kgco2e_per_tonne mat) |} /\
    status_of (screen_contract materials row) = SKIPPED_INVALID_REF.
Proof.
  intros materials row mat Hgate Hmat Hbad.
  assert (E : screen_contract materials row =
                {| source_row := row;
                   added := InvalidRef (composite_price_gbp_per_tonne mat)
                                       (carbon_factor_kgco2e_per_tonne mat) |}).
  { unfold screen_contract. rewrite Hgate, Hmat.
    destruct Hbad as [H|H]; apply float_or_zero_at_most_zero in H; rewrite H;
      [|rewrite orb_true_r]; reflexivity. }
  split; [exact E | now rewrite E].
Qed.

Lemma non_positive_reference_is_skipped_witness :
  status_of (screen_contract
               [reference_row "MAT_STEEL" (Some "steel") 0 100]
               (contract_for "ocds-1" "100000")) = SKIPPED_INVALID_REF.
Proof.
  refine (proj2 (non_positive_reference_is_skipped
            [reference_row "MAT_STEEL" (Some "steel") 0 100]
            (contract_for "ocds-1" "100000")
            (reference_row "MAT_STEEL" (Some "steel") 0 100) _ _ _)).
  - vm_compute. reflexivity.
  - vm_compute. reflexivity.
  - left. vm_compute. reflexivity.
Defined.

(** X12.  A larger CO2e estimate never gets a lower tier. *)
Theorem risk_tier_is_monotone :
  forall a b : float,
    (a <=? b)%float = true ->
    tier_rank (risk_tier a) <= tier_rank (risk_tier b).
Proof.
  intros a b Hab.
  assert (H : forall c, (c <=? a)%float = true -> (c <=? b)%float = true)
    by (intros c Hc; exact (leb_trans c a b Hc Hab)).
  unfold risk_tier.
  destruct (1000 <=? a)%float eqn:E1.
  - rewrite (H _ E1). cbn. lia.
  - destruct (250 <=? a)%float eqn:E2.
    + rewrite (H _ E2). destruct (1000 <=? b)%float; cbn; lia.
    + destruct (50 <=? a)%float eqn:E3.
      * rewrite (H _ E3).
        destruct (1000 <=? b)%float, (250 <=? b)%float; cbn; lia.
      * cbn. lia.
Qed.

Lemma risk_tier_is_monotone_witness :
  tier_rank (risk_tier 49.5) <= tier_rank (risk_tier 250).
Proof.
  apply (risk_tier_is_monotone 49.5 250). vm_compute. reflexivity.
Defined.


(** X13.  Whatever the contract and the reference table, the four
    figures of an estimate are never below zero: each is NaN, zero or
    positive. *)
Theorem estimates_are_never_negative :
  forall (materials : list material) (row : contract) (e : estimate),
    estimate_of (screen_contract materials row) = Some e ->
    (est_material_tonnes e <? 0)%float = false /\
    (est_co2e_tonnes e <? 0)%float = false /\
    (co2e_range_low e <? 0)%float = false /\
    (co2e_range_high e <? 0)%float = false.
Proof.
  intros materials row e. unfold estimate_of, screen_contract.
  destruct (clean_currency (value_amount row) <? MIN_SPEND_GBP)%float eqn:Eg;
    [discriminate|].
  destruct (detect_material (full_text row) materials) as [mat|];
    [|discriminate].
  destruct ((float_or_zero (composite_price_gbp_per_tonne mat) <=? 0)%float
            || (float_or_zero (carbon_factor_kgco2e_per_tonne mat) <=? 0)%float)
    eqn:Ev; [discriminate|].
  apply orb_false_iff in Ev. destruct Ev as [Ep Ef].
  cbn [added]. intros H. inversion H; subst e. clear H.
  cbn [est_material_tonnes est_co2e_tonnes co2e_range_low co2e_range_high].
  assert (Ht : nonneg_sf (Prim2SF (clean_currency (value_amount row)
                 / float_or_zero (composite_price_gbp_per_tonne mat)))).
  { apply div_nonneg; [now apply not_below_5000_nonneg
                      | now apply not_at_most_0_pos]. }
  assert (Hc : nonneg_sf (Prim2SF
                 (clean_currency (value_amount row)
                  / float_or_zero (composite_price_gbp_per_tonne mat)
                  * float_or_zero (carbon_factor_kgco2e_per_tonne mat)
                  / 1000))).
  { apply div_nonneg; [|vm_compute; reflexivity].
    apply mul_nonneg; [exact Ht | now apply not_at_most_0_pos]. }
  repeat split; apply nonneg_not_below_zero, round2_nonneg; trivial;
    (apply mul_nonneg; [exact Hc | vm_compute; reflexivity]).
Qed.

Lemma estimates_are_never_negative_witness :
  match estimate_of (screen_contract [steel] (contract_for "ocds-2" "100000"))
  with
  | Some e => (est_co2e_tonnes e <? 0)%float = false
  | None => False
  end.
Proof.
  destruct (estimate_of (screen_contract [steel]
                           (contract_for "ocds-2" "100000"))) as [e|] eqn:E.
  - exact (proj1 (proj2 (estimates_are_never_negative
                           [steel] (contract_for "ocds-2" "100000") e E))).
  - vm_compute in E. discriminate.
Defined.

Lemma float_of_decimal_nonneg s f :
  float_of_decimal s = Some f -> nonneg_sf (Prim2SF f).
Proof.
  unfold float_of_decimal.
  destruct (is_empty (sfilter isdigit s) || (1 <? _)); [discriminate|].
  intros H. inversion H. apply float_of_ratio_nonneg.
Qed.

(** X14.  An amount read by [clean_currency] or by [clean_financials] is
    never below zero, and a minus sign in front of the text is ignored:
    the amount is read as if it were not there. *)
Theorem amounts_are_never_negative :
  forall val : cell,
    (clean_currency val <? 0)%float = false /\
    (CleanData.clean_financials val <? 0)%float = false /\
    (forall s, clean_currency (Some (String "-" s)) = clean_currency (Some s)) /\
    (forall s, CleanData.clean_financials (Some (String "-" s))
               = CleanData.clean_financials (Some s)).
Proof.
  intros val. repeat split.
  - apply nonneg_not_below_zero. rewrite clean_currency_eq.
    destruct (float_of_decimal _) eqn:E;
      [now apply (float_of_decimal_nonneg _ _ E) | exact I].
  - apply nonneg_not_below_zero. unfold CleanData.clean_financials.
    destruct val as [s|]; [|exact I].
    destruct (float_of_decimal _) eqn:E;
      [now apply (float_of_decimal_nonneg _ _ E) | exact I].
Qed.

(** *** [detect_material] *)

Lemma scan_rows_passes text before :
  forall rest,
    (forall r, In r before -> passed_over text r) ->
    scan_rows text (before ++ rest) = scan_rows text rest.
Proof.
  induction before as [|r before IH]; intros rest Hp; [reflexivity|].
  cbn [app scan_rows].
  destruct (Hp r (or_introl eq_refl)) as [Hs|Hk].
  - rewrite Hs. apply IH. intros r' Hr'. apply Hp. now right.
  - rewrite Hk. destruct (skipped_as_generic r);
      apply IH; intros r' Hr'; apply Hp; now right.
Qed.

Lemma first_match_aux :
  forall (text : string) (before after : list material) (row : material),
    (forall r, In r before -> passed_over (lower text) r) ->
    skipped_as_generic row = false ->
    any_keyword_in (lower text) (keyword_list row) = true ->
    detect_material text (before ++ row :: after) = Some row.
Proof.
  intros text before after row Hbefore Hs Hk.
  unfold detect_material.
  rewrite (scan_rows_passes _ _ _ Hbefore).
  cbn [scan_rows]. now rewrite Hs, Hk.
Qed.

(** X15.  The first row that is not taken for the generic one and has a
    keyword contained in the lower-cased text is the row returned: the
    rows after it are not looked at, and the order of the table decides
    between rows that match. *)
Theorem first_matching_row_is_returned :
  forall (text : string) (before after : list material) (row : material),
    (forall r, In r before -> passed_over (lower text) r) ->
    skipped_as_generic row = false ->
    any_keyword_in (lower text) (keyword_list row) = true ->
    detect_material text (before ++ row :: after) = Some row.
Proof. exact first_match_aux. Qed.

Lemma first_matching_row_is_returned_witness :
  detect_material "Steel footbridge and CONCRETE deck"
    [reference_row "MAT_GEN" (Some "works") 1 1;
     reference_row "MAT_TIMBER" (Some "timber|glulam") 1 1;
     reference_row "MAT_CONCRETE" (Some " Concrete | cement") 2 2;
     reference_row "MAT_STEEL" (Some "steel") 3 3]
    = Some (reference_row "MAT_CONCRETE" (Some " Concrete | cement") 2 2).
Proof.
  refine (first_matching_row_is_returned
            "Steel footbridge and CONCRETE deck"
            [reference_row "MAT_GEN" (Some "works") 1 1;
             reference_row "MAT_TIMBER" (Some "timber|glulam") 1 1]
            [reference_row "MAT_STEEL" (Some "steel") 3 3]
            (reference_row "MAT_CONCRETE" (Some " Concrete | cement") 2 2)
            _ _ _).
  - intros r [<-|[<-|[]]]; [left | right]; vm_compute; reflexivity.
  - vm_compute. reflexivity.
  - vm_compute. reflexivity.
Defined.

(** X16.  When the loop passes over every row, the result is the first
    row whose id is exactly ["MAT_GEN"], and nothing when there is no
    such row; in every case a row returned is a row of the table. *)
Theorem fallback_is_first_exact_generic :
  forall (text : string) (ref_df : list material),
    (forall r, In r ref_df -> passed_over (lower text) r) ->
    detect_material text ref_df = find is_mat_gen ref_df /\
    forall row, detect_material text ref_df = Some row ->
                In row ref_df /\ material_id row = Some "MAT_GEN".
Proof.
  intros text ref_df Hp.
  assert (E : detect_material text ref_df = find is_mat_gen ref_df).
  { unfold detect_material.
    pose proof (scan_rows_passes (lower text) ref_df [] Hp) as Hs.
    rewrite app_nil_r in Hs. rewrite Hs. cbn [scan_rows].
    clear. induction ref_df as [|r rest IH]; [reflexivity|].
    cbn [filter find]. destruct (is_mat_gen r); [reflexivity | exact IH]. }
  split; [exact E|].
  intros row Hrow. rewrite E in Hrow. apply find_some in Hrow.
  destruct Hrow as [Hin Hg]. split; [exact Hin|].
  unfold is_mat_gen in Hg. destruct (material_id row) as [s|]; [|discriminate].
  apply String.eqb_eq in Hg. now subst.
Qed.

Lemma fallback_is_first_exact_generic_witness :
  detect_material "Grass cutting"
    [reference_row "MAT_STEEL" (Some "steel") 3 3;
     reference_row "MAT_GEN" (Some "grass") 1 1]
    = Some (reference_row "MAT_GEN" (Some "grass") 1 1).
Proof.
  refine (proj1 (fallback_is_first_exact_generic "Grass cutting"
            [reference_row "MAT_STEEL" (Some "steel") 3 3;
             reference_row "MAT_GEN" (Some "grass") 1 1] _)).
  intros r [<-|[<-|[]]]; [right | left]; vm_compute; reflexivity.
Defined.





(** X18.  A reference row whose keywords cell is empty is read as having
    the single keyword ["nan"]: unless its id reads as the generic one,
    it matches every text that contains these three letters and is not
    matched by an earlier row. *)
Theorem empty_keywords_match_nan :
  forall (text : string) (before after : list material) (row : material),
    keywords row = None ->
    skipped_as_generic row = false ->
    contains "nan" (lower text) = true ->
    (forall r, In r before -> passed_over (lower text) r) ->
    keyword_list row = ["nan"] /\
    detect_material text (before ++ row :: after) = Some row.
Proof.
  intros text before after row Hk Hs Hc Hb.
  assert (E : keyword_list row = ["nan"]).
  { unfold keyword_list. rewrite Hk. reflexivity. }
  split; [exact E|].
  apply first_match_aux; trivial.
  rewrite E. cbn [any_keyword_in existsb]. rewrite Hc. reflexivity.
Qed.

Lemma empty_keywords_match_nan_witness :
  detect_material "Road maintenance"
    [reference_row "MAT_TIMBER" None 1 1;
     reference_row "MAT_ASPHALT" (Some "road") 2 2]
    = Some (reference_row "MAT_TIMBER" None 1 1).
Proof.
  refine (proj2 (empty_keywords_match_nan "Road maintenance" []
            [reference_row "MAT_ASPHALT" (Some "road") 2 2]
            (reference_row "MAT_TIMBER" None 1 1) eq_refl _ _ _)).
  - vm_compute. reflexivity.
  - vm_compute. reflexivity.
  - intros r [].
Defined.

End PqeMore.

(* ================================================================= *)
(** ** The strict filter and more on the cleaning run *)

Section StripFacts.
Import Py.

Lemma prefix_empty s : prefix "" s = true.
Proof. destruct s; reflexivity. Qed.

Lemma prefix_trans a :
  forall b c, prefix a b = true -> prefix b c = true -> prefix a c = true.
Proof.
  induction a as [|x a IH]; intros b c Hab Hbc; [apply prefix_empty|].
  destruct b as [|y b]; [discriminate|].
  destruct c as [|z c]; [discriminate|].
  cbn [prefix] in *.
  destruct (ascii_dec x y) as [->|]; [|discriminate].
  destruct (ascii_dec y z) as [->|]; [|discriminate].
  now apply (IH b c).
Qed.

Lemma prefix_45_not_71 s : prefix "45" s = true -> prefix "71" s = false.
Proof.
  destruct s as [|c s]; [discriminate|]. cbn [prefix].
  destruct (ascii_dec "4" c) as [<-|]; [reflexivity | discriminate].
Qed.

Lemma lstrip_head s :
  match lstrip s with
  | String c _ => isspace c = false
  | EmptyString => True
  end.
Proof.
  induction s as [|c r IH]; cbn [lstrip]; [exact I|].
  destruct (isspace c) eqn:E; [exact IH | exact E].
Qed.

Lemma lstrip_fixed s :
  match s with String c _ => isspace c = false | EmptyString => True end ->
  lstrip s = s.
Proof.
  destruct s as [|c r]; cbn [lstrip]; [reflexivity|]. now intros ->.
Qed.

Lemma rstrip_head s :
  match s with String c _ => isspace c = false | EmptyString => True end ->
  match rstrip s with
  | String c _ => isspace c = false
  | EmptyString => True
  end.
Proof.
  destruct s as [|c r]; cbn [rstrip]; [trivial|].
  intros E. rewrite E. cbn [andb]. exact E.
Qed.

Lemma rstrip_idem s : rstrip (rstrip s) = rstrip s.
Proof.
  induction s as [|c r IH]; [reflexivity|].
  cbn [rstrip].
  destruct (isspace c && is_empty (rstrip r)) eqn:E; [reflexivity|].
  cbn [rstrip]. rewrite IH, E. reflexivity.
Qed.

Lemma strip_idem s : strip (strip s) = strip s.
Proof.
  unfold strip.
  rewrite (lstrip_fixed (rstrip (lstrip s))).
  - apply rstrip_idem.
  - apply rstrip_head, lstrip_head.
Qed.






End StripFacts.

Section StrictFacts.
Import Py StrictFilter.

Lemma allowed_prefixes_under_45 p :
  In p ALLOWED_PREFIXES -> prefix "45" p = true.
Proof.
  unfold ALLOWED_PREFIXES.
  intros [<-|[<-|[<-|[<-|[<-|[<-|[]]]]]]]; reflexivity.
Qed.

(** X19.  Every row the strict filter keeps is a row of the input with
    its code stripped of surrounding blanks; the code starts with one of
    the six allowed prefixes, hence with ["45"], and never with ["71"]:
    of the two sectors accepted at ingestion only the first can pass. *)
Theorem strict_filter_keeps_civil_works :
  forall (df : list row) (r : row),
    In r (filter_strict_cpvs df) ->
    exists r0 code p,
      In r0 df /\ r = strip_code r0 /\
      cpv_code r = Some code /\ strip code = code /\
      In p ALLOWED_PREFIXES /\ startswith code p = true /\
      startswith code "45" = true /\ startswith code "71" = false.
Proof.
  intros df r Hr. unfold filter_strict_cpvs in Hr.
  apply filter_In in Hr. destruct Hr as [Hin Hmask].
  apply in_map_iff in Hin. destruct Hin as [r0 [<- Hr0]].
  unfold civil_mask in Hmask. apply existsb_exists in Hmask.
  destruct Hmask as [p [Hp Hs]].
  cbn [strip_code cpv_code cell_str] in Hs.
  exists r0, (strip (cell_str (cpv_code r0))), p.
  assert (H45 : startswith (strip (cell_str (cpv_code r0))) "45" = true).
  { unfold startswith in *.
    apply (prefix_trans "45" p); [now apply allowed_prefixes_under_45 | exact Hs]. }
  repeat split; auto.
  - apply strip_idem.
  - unfold startswith in *. now apply prefix_45_not_71.
Qed.

Lemma strict_filter_keeps_civil_works_witness :
  map ocid
      (filter_strict_cpvs
         [coded_row "ocds-1" (Some " 45233000 ");
          coded_row "ocds-2" (Some "71000000");
          coded_row "ocds-3" (Some "45210000");
          coded_row "ocds-4" None;
          coded_row "ocds-5" (Some "452200007")])
    = [Some "ocds-1"; Some "ocds-5"] /\
  forall r,
    In r (filter_strict_cpvs
            [coded_row "ocds-1" (Some " 45233000 ");
             coded_row "ocds-2" (Some "71000000");
             coded_row "ocds-3" (Some "45210000");
             coded_row "ocds-4" None;
             coded_row "ocds-5" (Some "452200007")]) ->
    exists code, cpv_code r = Some code /\ startswith code "45" = true.
Proof.
  split; [vm_compute; reflexivity|].
  intros r Hr.
  destruct (strict_filter_keeps_civil_works _ r Hr)
    as [r0 [code [p [_ [_ [Hc [_ [_ [_ [H45 _]]]]]]]]]].
  now exists code.
Defined.

Lemma strip_code_idem r : strip_code (strip_code r) = strip_code r.
Proof.
  unfold strip_code. cbn [ocid title cpv_code value_amount buyer_name cell_str].
  now rewrite strip_idem.
Qed.

Lemma civil_mask_strip_code r :
  civil_mask (strip_code (strip_code r)) = civil_mask (strip_code r).
Proof. now rewrite strip_code_idem. Qed.

(** X20.  Filtering a table that has been filtered changes nothing. *)
Theorem strict_filter_is_idempotent :
  forall df : list row,
    filter_strict_cpvs (filter_strict_cpvs df) = filter_strict_cpvs df.
Proof.
  intros df. unfold filter_strict_cpvs.
  induction df as [|r df IH]; [reflexivity|].
  cbn [map filter].
  destruct (civil_mask (strip_code r)) eqn:E.
  - cbn [map filter]. rewrite strip_code_idem, E. now f_equal.
  - exact IH.
Qed.

End StrictFacts.

Section CleanMore.
Import Py CleanData.

Lemma dropna_In names n : In n (dropna names) <-> In (Some n) names.
Proof.
  induction names as [|[m|] names IH]; cbn [dropna In].
  - tauto.
  - rewrite IH. split; intros [H|H]; auto; left; congruence.
  - rewrite IH. split; [auto | intros [H|H]; [discriminate | exact H]].
Qed.

Lemma cluster_append_perm key name clusters :
  Permutation (List.concat (map snd (cluster_append key name clusters)))
              (name :: List.concat (map snd clusters)).
Proof.
  induction clusters as [|[k vs] r IH]; cbn [cluster_append].
  - reflexivity.
  - destruct (String.eqb k key); cbn [map snd List.concat].
    + rewrite <- app_assoc. cbn [app].
      symmetry. apply Permutation_middle.
    + rewrite IH. symmetry.
      apply (Permutation_middle vs (List.concat (map snd r)) name).
Qed.

Lemma cluster_append_keys key name clusters :
  NoDup (map fst clusters) ->
  NoDup (map fst (cluster_append key name clusters)) /\
  forall k, In k (map fst (cluster_append key name clusters)) ->
            k = key \/ In k (map fst clusters).
Proof.
  induction clusters as [|[k0 vs] r IH]; intros Hnd; cbn [cluster_append].
  - split; [repeat constructor; intros [] | intros k [<-|[]]; now left].
  - cbn [map fst] in Hnd. inversion Hnd as [|? ? Hk0 Hr]; subst.
    destruct (String.eqb k0 key) eqn:E; cbn [map fst].
    + split; [now constructor|]. intros k Hk. now right.
    + destruct (IH Hr) as [Hnd' Hin'].
      split.
      * constructor; [|exact Hnd'].
        intros Hin. destruct (Hin' _ Hin) as [->|H]; [|contradiction].
        rewrite String.eqb_refl in E. discriminate.
      * intros k [<-|Hk]; [right; now left|].
        destruct (Hin' _ Hk); [now left | right; now right].
Qed.

Lemma build_clusters_facts names :
  Permutation (List.concat (map snd (build_clusters names)))
              (unique (dropna names)) /\
  NoDup (map fst (build_clusters names)).
Proof.
  unfold build_clusters.
  assert (H : forall l clusters,
             NoDup (map fst clusters) ->
             Permutation
               (List.concat (map snd
                  (fold_left (fun clusters name =>
                                cluster_append (cluster_key name) name clusters)
                             l clusters)))
               (List.concat (map snd clusters) ++ l) /\
             NoDup (map fst
                  (fold_left (fun clusters name =>
                                cluster_append (cluster_key name) name clusters)
                             l clusters))).
  { induction l as [|a l IH]; intros clusters Hnd; cbn [fold_left].
    - rewrite app_nil_r. now split.
    - destruct (IH (cluster_append (cluster_key a) a clusters)) as [Hp Hk].
      { now apply cluster_append_keys. }
      split; [|exact Hk].
      apply (Permutation_trans Hp).
      apply Permutation_trans
        with ((a :: List.concat (map snd clusters)) ++ l).
      + apply Permutation_app_tail, cluster_append_perm.
      + cbn [app]. apply Permutation_middle. }
  destruct (H (unique (dropna names)) []) as [Hp Hk]; [constructor|].
  now split.
Qed.

Lemma canonical_rows_raw clusters :
  forall rows,
    canonical_rows clusters = Some rows ->
    map buyer_name_raw rows = List.concat (map snd clusters).
Proof.
  induction clusters as [|[k vs] r IH]; intros rows; cbn [canonical_rows].
  - intros H. inversion H. reflexivity.
  - destruct (choose_canonical k vs) as [c|]; [|discriminate].
    destruct (canonical_rows r) as [rows'|]; [|discriminate].
    intros H. inversion H. rewrite map_app, (IH rows' eq_refl).
    cbn [map snd List.concat]. f_equal.
    unfold cluster_rows. rewrite map_map. cbn [buyer_name_raw].
    apply map_id.
Qed.

Lemma canonical_rows_inv clusters :
  forall rows row,
    canonical_rows clusters = Some rows ->
    In row rows ->
    exists k vs,
      In (k, vs) clusters /\
      choose_canonical k vs = Some (buyer_name_canonical row) /\
      In (buyer_name_raw row) vs.
Proof.
  induction clusters as [|[k vs] r IH]; intros rows row; cbn [canonical_rows].
  - intros H. inversion H. intros [].
  - destruct (choose_canonical k vs) as [c|] eqn:Ec; [|discriminate].
    destruct (canonical_rows r) as [rows'|]; [|discriminate].
    intros H Hin. inversion H; subst rows. apply in_app_or in Hin.
    destruct Hin as [Hin|Hin].
    + unfold cluster_rows in Hin. apply in_map_iff in Hin.
      destruct Hin as [v [<- Hv]]. exists k, vs.
      cbn [buyer_name_raw buyer_name_canonical].
      split; [now left | now split].
    + destruct (IH rows' row eq_refl Hin) as [k' [vs' [H1 H2]]].
      exists k', vs'. split; [now right | exact H2].
Qed.

Lemma choose_canonical_In key variants c :
  choose_canonical key variants = Some c -> In c variants.
Proof.
  unfold choose_canonical, acronym_matches.
  destruct (filter _ variants) as [|m rest] eqn:Ef.
  - destruct variants as [|a r]; [discriminate|].
    destruct (most_common_variant (a :: r))
      as [c' [n [earlier [later [Hm [Hs _]]]]]]; [discriminate|].
    rewrite Hm. intros H. inversion H; subst c'.
    rewrite Hs. apply in_or_app. right. now left.
  - intros H. inversion H; subst m.
    assert (Hin : In c (filter (fun v => String.eqb (acronym_form v) key)
                               variants))
      by (rewrite Ef; now left).
    apply filter_In in Hin. tauto.
Qed.

Lemma buyer_map_rows_aux :
  forall names : list cell,
  exists rows,
    build_canonical_map names = Some rows /\
    NoDup (map buyer_name_raw rows) /\
    forall n, In n (map buyer_name_raw rows) <-> In (Some n) names.
Proof.
  intros names.
  destruct (build_canonical_map_rows names) as [rows [Hrows _]].
  exists rows. split; [exact Hrows|].
  destruct (build_clusters_facts names) as [Hp _].
  unfold build_canonical_map in Hrows.
  rewrite (canonical_rows_raw _ _ Hrows).
  split.
  - apply (Permutation_NoDup (Permutation_sym Hp)), unique_NoDup.
  - intros n. split; intros H.
    + apply dropna_In, unique_In. exact (Permutation_in _ Hp H).
    + apply dropna_In, unique_In in H.
      exact (Permutation_in _ (Permutation_sym Hp) H).
Qed.

(** X21.  The table [build_canonical_map] returns for a column of
    texts is a function on the names: every name of the column that is
    not missing has exactly one row, and no other name has a row. *)
Theorem buyer_map_is_functional :
  forall (names : list cell) (rows : list map_row),
    build_canonical_map names = Some rows ->
    NoDup (map buyer_name_raw rows) /\
    forall n, In n (map buyer_name_raw rows) <-> In (Some n) names.
Proof.
  intros names rows Hrows.
  destruct (buyer_map_rows_aux names) as [rows' [Hr' H]].
  rewrite Hrows in Hr'. inversion Hr'; subst rows'. exact H.
Qed.

Lemma buyer_map_is_functional_witness :
  match build_canonical_map mixed_names with
  | Some rows =>
      map buyer_name_raw rows
        = ["Highways England"; "HE"; "highways  england";
           "HIGHWAYS ENGLAND"; "Transport for London"] /\
      NoDup (map buyer_name_raw rows)
  | None => False
  end.
Proof.
  destruct (build_canonical_map mixed_names) as [rows|] eqn:E.
  - split.
    + vm_compute in E. inversion E. reflexivity.
    + exact (proj1 (buyer_map_is_functional mixed_names rows E)).
  - vm_compute in E. discriminate.
Defined.

Lemma find_by_raw rows row :
  NoDup (map buyer_name_raw rows) ->
  In row rows ->
  find (fun r => String.eqb (buyer_name_raw r) (buyer_name_raw row)) rows
    = Some row.
Proof.
  induction rows as [|a rows IH]; intros Hnd Hin; [destruct Hin|].
  cbn [map] in Hnd. inversion Hnd as [|? ? Ha Hr]; subst.
  cbn [find]. destruct Hin as [->|Hin].
  - now rewrite String.eqb_refl.
  - destruct (String.eqb (buyer_name_raw a) (buyer_name_raw row)) eqn:E.
    + apply String.eqb_eq in E. exfalso. apply Ha. rewrite E.
      now apply in_map.
    + now apply IH.
Qed.

Lemma canonical_row_facts names rows row :
  build_canonical_map names = Some rows ->
  In row rows ->
  In (Some (buyer_name_canonical row)) names /\
  cluster_key (buyer_name_canonical row) = cluster_key (buyer_name_raw row) /\
  In {| buyer_name_raw := buyer_name_canonical row;
        buyer_name_canonical := buyer_name_canonical row |} rows.
Proof.
  intros Hrows Hin.
  destruct (canonical_rows_inv _ _ _ Hrows Hin) as [k [vs [Hcl [Hc Hv]]]].
  pose proof (choose_canonical_In _ _ _ Hc) as Hcin.
  destruct (build_clusters_good names k vs Hcl) as [_ [Hkey _]].
  destruct (build_clusters_facts names) as [Hp _].
  destruct (build_canonical_map_rows names) as [rows' [Hrows' Hall]].
  rewrite Hrows in Hrows'. inversion Hrows'; subst rows'.
  repeat split.
  - apply dropna_In, unique_In. apply (Permutation_in _ Hp).
    apply in_concat. exists vs. split; [|exact Hcin].
    apply (in_map snd _ (k, vs)). exact Hcl.
  - now rewrite (Hkey _ Hcin), (Hkey _ Hv).
  - now apply (Hall k vs).
Qed.

Lemma canonical_fixed_point_aux :
  forall (names : list cell) (rows : list map_row) (row : map_row),
    build_canonical_map names = Some rows ->
    In row rows ->
    In (Some (buyer_name_canonical row)) names /\
    cluster_key (buyer_name_canonical row) = cluster_key (buyer_name_raw row) /\
    lookup_canonical rows (Some (buyer_name_canonical row))
      = Some (buyer_name_canonical row).
Proof.
  intros names rows row Hrows Hin.
  destruct (canonical_row_facts names rows row Hrows Hin) as [H1 [H2 H3]].
  split; [exact H1|]. split; [exact H2|].
  destruct (buyer_map_rows_aux names) as [rows' [Hr' [Hnd _]]].
  rewrite Hrows in Hr'. inversion Hr'; subst rows'.
  unfold lookup_canonical.
  pose proof (find_by_raw rows _ Hnd H3) as Hf.
  cbn [buyer_name_raw] in Hf. rewrite Hf. reflexivity.
Qed.

(** X22.  In the table of [build_canonical_map] the canonical name of a
    row is itself a name of the column, it has the cluster key of the raw
    name, and it is its own canonical name. *)
Theorem canonical_name_is_a_fixed_point :
  forall (names : list cell) (rows : list map_row) (row : map_row),
    build_canonical_map names = Some rows ->
    In row rows ->
    In (Some (buyer_name_canonical row)) names /\
    cluster_key (buyer_name_canonical row) = cluster_key (buyer_name_raw row) /\
    lookup_canonical rows (Some (buyer_name_canonical row))
      = Some (buyer_name_canonical row).
Proof. exact canonical_fixed_point_aux. Qed.

Lemma canonical_name_is_a_fixed_point_witness :
  option_map
    (fun rows => (lookup_canonical rows (Some "highways  england"),
                  lookup_canonical rows (Some "HE")))
    (build_canonical_map mixed_names)
    = Some (Some "HE", Some "HE").
Proof.
  destruct (build_canonical_map mixed_names) as [rows|] eqn:E;
    [|vm_compute in E; discriminate].
  assert (Hin : In {| buyer_name_raw := "highways  england";
                      buyer_name_canonical := "HE" |} rows).
  { vm_compute in E. inversion E. cbn. tauto. }
  pose proof (proj2 (proj2 (canonical_name_is_a_fixed_point
                              mixed_names rows _ E Hin))) as Hfix.
  cbn [buyer_name_canonical] in Hfix. cbn [option_map]. rewrite Hfix.
  vm_compute in E. inversion E. reflexivity.
Defined.

(** X23.  Looking a name up twice gives what looking it up once gives:
    rewriting the buyer column with the map is idempotent. *)
Theorem canonical_lookup_is_idempotent :
  forall (names : list cell) (rows : list map_row) (raw : cell),
    build_canonical_map names = Some rows ->
    lookup_canonical rows (lookup_canonical rows raw)
      = lookup_canonical rows raw.
Proof.
  intros names rows raw Hrows.
  destruct raw as [n|]; [|reflexivity].
  unfold lookup_canonical at 2 3.
  destruct (find (fun r => String.eqb (buyer_name_raw r) n) rows)
    as [row|] eqn:Ef; [|reflexivity].
  apply find_some in Ef. destruct Ef as [Hin _].
  exact (proj2 (proj2 (canonical_fixed_point_aux
                         names rows row Hrows Hin))).
Qed.

Lemma canonical_lookup_is_idempotent_witness :
  match build_canonical_map mixed_names with
  | Some rows =>
      lookup_canonical rows (lookup_canonical rows (Some "Highways England"))
        = lookup_canonical rows (Some "Highways England")
  | None => False
  end.
Proof.
  destruct (build_canonical_map mixed_names) as [rows|] eqn:E.
  - exact (canonical_lookup_is_idempotent mixed_names rows _ E).
  - vm_compute in E. discriminate.
Defined.


Lemma NoDup_fst_functional {A B} (l : list (A * B)) k a b :
  NoDup (map fst l) -> In (k, a) l -> In (k, b) l -> a = b.
Proof.
  induction l as [|[k0 v0] l IH]; intros Hnd Ha Hb; [destruct Ha|].
  cbn [map fst] in Hnd. inversion Hnd as [|? ? Hk Hl]; subst.
  destruct Ha as [Ea|Ha], Hb as [Eb|Hb].
  - congruence.
  - inversion Ea; subst. exfalso. apply Hk.
    apply (in_map fst _ (k, b)). exact Hb.
  - inversion Eb; subst. exfalso. apply Hk.
    apply (in_map fst _ (k, a)). exact Ha.
  - now apply IH.
Qed.

Lemma same_key_aux :
  forall (names : list cell) (rows : list map_row) (r1 r2 : map_row),
    build_canonical_map names = Some rows ->
    In r1 rows -> In r2 rows ->
    cluster_key (buyer_name_raw r1) = cluster_key (buyer_name_raw r2) ->
    buyer_name_canonical r1 = buyer_name_canonical r2.
Proof.
  intros names rows r1 r2 Hrows H1 H2 Hkey.
  destruct (canonical_rows_inv _ _ _ Hrows H1) as [k1 [vs1 [Hc1 [Hch1 Hv1]]]].
  destruct (canonical_rows_inv _ _ _ Hrows H2) as [k2 [vs2 [Hc2 [Hch2 Hv2]]]].
  destruct (build_clusters_good names k1 vs1 Hc1) as [_ [Hk1 _]].
  destruct (build_clusters_good names k2 vs2 Hc2) as [_ [Hk2 _]].
  assert (Ek : k1 = k2) by (rewrite <- (Hk1 _ Hv1), <- (Hk2 _ Hv2); exact Hkey).
  subst k2.
  destruct (build_clusters_facts names) as [_ Hnd].
  assert (Ev : vs1 = vs2) by exact (NoDup_fst_functional _ _ _ _ Hnd Hc1 Hc2).
  subst vs2. congruence.
Qed.

(** X24.  Two names with the same cluster key have the same canonical
    name: the map depends on a name only through its key. *)
Theorem same_key_same_canonical :
  forall (names : list cell) (rows : list map_row) (r1 r2 : map_row),
    build_canonical_map names = Some rows ->
    In r1 rows -> In r2 rows ->
    cluster_key (buyer_name_raw r1) = cluster_key (buyer_name_raw r2) ->
    buyer_name_canonical r1 = buyer_name_canonical r2.
Proof. exact same_key_aux. Qed.

Lemma same_key_same_canonical_witness :
  buyer_name_canonical
    {| buyer_name_raw := "Highways England"; buyer_name_canonical := "HE" |}
  = buyer_name_canonical
      {| buyer_name_raw := "HIGHWAYS ENGLAND"; buyer_name_canonical := "HE" |}.
Proof.
  destruct (build_canonical_map mixed_names) as [rows|] eqn:E;
    [|vm_compute in E; discriminate].
  refine (same_key_same_canonical mixed_names rows _ _ E _ _ _).
  - vm_compute in E. inversion E. cbn. tauto.
  - vm_compute in E. inversion E. cbn. tauto.
  - vm_compute. reflexivity.
Defined.

Lemma lookup_of_listed_name names rows n :
  build_canonical_map names = Some rows ->
  In (Some n) names ->
  exists row,
    In row rows /\ buyer_name_raw row = n /\
    lookup_canonical rows (Some n) = Some (buyer_name_canonical row).
Proof.
  intros Hrows Hn.
  destruct (buyer_map_rows_aux names)
    as [rows' [Hr' [Hnd Hall]]].
  rewrite Hrows in Hr'. inversion Hr'; subst rows'.
  apply Hall, in_map_iff in Hn. destruct Hn as [row [Hraw Hin]].
  exists row. split; [exact Hin|]. split; [exact Hraw|].
  unfold lookup_canonical. rewrite <- Hraw.
  now rewrite (find_by_raw rows row Hnd Hin).
Qed.




(** X26.  A name that shares its cluster key with no other name of the
    column is its own canonical name. *)
Theorem lone_name_is_its_own_canonical :
  forall (names : list cell) (rows : list map_row) (n : string),
    build_canonical_map names = Some rows ->
    In (Some n) names ->
    (forall m, In (Some m) names -> cluster_key m = cluster_key n -> m = n) ->
    lookup_canonical rows (Some n) = Some n /\
    In {| buyer_name_raw := n; buyer_name_canonical := n |} rows.
Proof.
  intros names rows n Hrows Hn Halone.
  destruct (lookup_of_listed_name names rows n Hrows Hn)
    as [row [Hin [Hraw Hl]]].
  destruct (canonical_row_facts names rows row Hrows Hin) as [Hc [Hk _]].
  assert (E : buyer_name_canonical row = n).
  { apply Halone; [exact Hc | now rewrite Hk, Hraw]. }
  split; [now rewrite Hl, E|].
  destruct row as [raw c]. cbn in *. now subst.
Qed.

Lemma lone_name_is_its_own_canonical_witness :
  match build_canonical_map mixed_names with
  | Some rows =>
      lookup_canonical rows (Some "Transport for London")
        = Some "Transport for London"
  | None => False
  end.
Proof.
  destruct (build_canonical_map mixed_names) as [rows|] eqn:E.
  - refine (proj1 (lone_name_is_its_own_canonical mixed_names rows
                     "Transport for London" E _ _)).
    + cbn. tauto.
    + intros m Hm. cbn in Hm.
      destruct Hm as [Hm|[Hm|[Hm|[Hm|[Hm|[Hm|[]]]]]]]; inversion Hm; subst m;
        vm_compute; intros H; congruence.
  - vm_compute in E. discriminate.
Defined.

(** *** The cleaned table, again *)

Lemma cell_eqb_eq a b : cell_eqb a b = true <-> a = b.
Proof.
  destruct a as [x|], b as [y|]; cbn [cell_eqb];
    try (split; [discriminate | congruence]); [|tauto].
  rewrite String.eqb_eq. split; congruence.
Qed.

Lemma drop_duplicates_from_NoDup {A} (df : list (contract A)) :
  forall seen,
    NoDup (map ocid (drop_duplicates_from seen df)) /\
    forall r, In r (drop_duplicates_from seen df) -> ~ In (ocid r) seen.
Proof.
  induction df as [|a df IH]; intros seen; cbn [drop_duplicates_from].
  - split; [constructor | intros r []].
  - destruct (existsb (cell_eqb (ocid a)) seen) eqn:E.
    + apply IH.
    + destruct (IH (ocid a :: seen)) as [Hnd Hseen].
      assert (Ha : ~ In (ocid a) seen).
      { intros Hin.
        assert (existsb (cell_eqb (ocid a)) seen = true).
        { apply existsb_exists. exists (ocid a).
          split; [exact Hin | now apply cell_eqb_eq]. }
        congruence. }
      split.
      * cbn [map]. constructor; [|exact Hnd].
        intros Hin. apply in_map_iff in Hin. destruct Hin as [r [Er Hr]].
        apply (Hseen r Hr). left. now symmetry.
      * intros r [<-|Hr]; [exact Ha|].
        intros Hin. apply (Hseen r Hr). now right.
Qed.

Lemma NoDup_map_filter {A B} (f : A -> B) (p : A -> bool) l :
  NoDup (map f l) -> NoDup (map f (filter p l)).
Proof.
  induction l as [|a l IH]; intros Hnd; [constructor|].
  cbn [map] in Hnd. inversion Hnd as [|? ? Ha Hl]; subst.
  cbn [filter]. destruct (p a); [|now apply IH].
  cbn [map]. constructor; [|now apply IH].
  intros Hin. apply Ha. apply in_map_iff in Hin.
  destruct Hin as [x [Ex Hx]]. apply filter_In in Hx.
  rewrite <- Ex. apply in_map. tauto.
Qed.

(** X27.  In the cleaned table no [ocid] occurs twice (two missing ids
    count as the same), the second table written is the buyer map of the
    name column, and every row carries in [buyer_name] the canonical name
    of the name it had: a row with a name never loses it, and its new
    name is its own canonical name. *)
Theorem cleaned_table_is_deduplicated :
  forall (df : list (contract cell)) (cleaned : list (contract float))
         (buyer_map : list map_row),
    run df = Some (cleaned, buyer_map) ->
    NoDup (map ocid cleaned) /\
    build_canonical_map (map buyer_name df) = Some buyer_map /\
    forall r, In r cleaned ->
      buyer_name r = lookup_canonical buyer_map (buyer_name_raw_col r) /\
      (buyer_name_raw_col r <> None ->
       exists c, buyer_name r = Some c /\
                 lookup_canonical buyer_map (Some c) = Some c).
Proof.
  intros df cleaned buyer_map Hrun. unfold run in Hrun.
  destruct (build_canonical_map (map buyer_name df)) as [[|m bm]|] eqn:Em;
    try discriminate.
  inversion Hrun; subst cleaned buyer_map. clear Hrun.
  set (buyer_map := m :: bm) in *.
  split; [|split; [reflexivity|]].
  - apply NoDup_map_filter. apply drop_duplicates_from_NoDup.
  - intros r Hr. apply filter_In in Hr. destruct Hr as [Hr _].
    apply drop_duplicates_from_In, in_map_iff in Hr.
    destruct Hr as [r0 [<- Hr0]].
    cbn [rewrite_row buyer_name buyer_name_raw_col].
    split; [reflexivity|].
    destruct (buyer_name r0) as [n|] eqn:En; [|congruence]. intros _.
    assert (Hn : In (Some n) (map buyer_name df)).
    { rewrite <- En. now apply in_map. }
    destruct (lookup_of_listed_name _ buyer_map n Em Hn)
      as [row [Hin [_ Hl]]].
    exists (buyer_name_canonical row). split; [exact Hl|].
    exact (proj2 (proj2 (canonical_fixed_point_aux
                           _ buyer_map row Em Hin))).
Qed.

Lemma cleaned_table_is_deduplicated_witness :
  match run repeated_table with
  | Some (cleaned, _) =>
      map (fun r => (ocid r, value_amount r)) cleaned
        = [(Some "ocds-1", 1500%float); (Some "ocds-2", 700%float)] /\
      NoDup (map ocid cleaned)
  | None => False
  end.
Proof.
  destruct (run repeated_table) as [[cleaned bm]|] eqn:E.
  - split.
    + vm_compute in E. inversion E. reflexivity.
    + exact (proj1 (cleaned_table_is_deduplicated repeated_table cleaned bm E)).
  - vm_compute in E. discriminate.
Defined.

End CleanMore.

(* ================================================================= *)
(** ** Where the code departs from its own intent *)

Section Departures.
Import Py.

(** C1, at the failing input.  The column holds ["ACME CO"] once and
    ["Acme Co"] three times; neither has the acronym form of the key
    ["AC"].  The cluster is built from the distinct names, so it holds
    each spelling once, the count of [Counter] is 1 for both, and the
    canonical name is the spelling met first, not the most frequent
    one. *)
Theorem canonical_ignores_column_frequency :
  count_occ string_dec (CleanData.dropna acme_column) "ACME CO" = 1 /\
  count_occ string_dec (CleanData.dropna acme_column) "Acme Co" = 3 /\
  CleanData.build_clusters acme_column = [("AC", ["ACME CO"; "Acme Co"])] /\
  CleanData.acronym_matches "AC" ["ACME CO"; "Acme Co"] = [] /\
  CleanData.Counter ["ACME CO"; "Acme Co"] = [("ACME CO", 1); ("Acme Co", 1)] /\
  CleanData.choose_canonical "AC" ["ACME CO"; "Acme Co"] = Some "ACME CO" /\
  CleanData.build_canonical_map acme_column =
    Some [{| CleanData.buyer_name_raw := "ACME CO";
             CleanData.buyer_name_canonical := "ACME CO" |};
          {| CleanData.buyer_name_raw := "Acme Co";
             CleanData.buyer_name_canonical := "ACME CO" |}].
Proof.
  repeat split; vm_compute; reflexivity.
Qed.

(** C7, at the failing input.  The first contract is below the spend
    gate; the second matches a reference row whose price is empty, is
    marked [CALCULATED] and gets NaN as its CO2e value.  Both rows get
    the sort key [-1], and the row of the skipped status stands above
    the [CALCULATED] row in the table written. *)
Theorem skipped_row_above_calculated_row :
  map PqeEngine.status_of
      (map (PqeEngine.screen_contract [unpriced_steel]) gate_contracts)
    = [PqeEngine.SKIPPED_LOW_VALUE; PqeEngine.CALCULATED] /\
  map PqeEngine.sort_helper
      (map (PqeEngine.screen_contract [unpriced_steel]) gate_contracts)
    = [(-1)%float; (-1)%float] /\
  map (fun r => (PqeEngine.ocid (PqeEngine.source_row r),
                 PqeEngine.status_of r, is_nan (PqeEngine.co2e_column r)))
      (PqeEngine.run_pqe_engine gate_contracts [unpriced_steel])
    = [(Some "ocds-1", PqeEngine.SKIPPED_LOW_VALUE, true);
       (Some "ocds-2", PqeEngine.CALCULATED, true)].
Proof.
  repeat split; vm_compute; reflexivity.
Qed.

(** The first variant of a built cluster, on the column above. *)
Lemma canonical_of_built_cluster_is_first_witness :
  CleanData.choose_canonical "AC" ["ACME CO"; "Acme Co"] = Some "ACME CO".
Proof.
  refine (canonical_of_built_cluster_is_first
            acme_column "AC" ["ACME CO"; "Acme Co"] _ _).
  - vm_compute. left. reflexivity.
  - intros v [<-|[<-|[]]]; vm_compute; discriminate.
Defined.

End Departures.
